(** * extract_and_build.py: a shallow embedding and its verified properties

    The program fetches one HTML page, selects the body rows of the
    "List of FIFA World Cup finals" wikitable with fixed XPath queries,
    normalises the text of four cells per row and writes two JSON files.

    Python strings are sequences of Unicode code points; they are modelled
    as lists of code points ([N]).  The two regular expressions used by
    [re.sub] and the one used by [re.search] are modelled by a small
    backtracking matcher written in continuation-passing style, the parsed
    document by a tree of element and text nodes, and the working directory
    by a finite map from paths to entries. *)

From Stdlib Require Import NArith List Bool Ascii String Lia.
From stdpp Require Import gmap strings list.
From Equations Require Import Equations.

Local Open Scope N_scope.

(** ** Python strings *)

Definition char := N.
Definition pystr := list char.

(** An ASCII literal of the source as a sequence of code points. *)
Definition lit (s : string) : pystr :=
  map N_of_ascii (list_ascii_of_string s).

Definition LBRACKET : char := 91.
Definition RBRACKET : char := 93.
Definition SPACE : char := 32.
Definition NBSP : char := 160.
Definition HYPHEN : char := 45.
Definition EN_DASH : char := 8211.

(** Whitespace as CPython decides it (the table behind [str.isspace],
    [str.strip] and the [\s] class of a [str] pattern): the code points
    U+0009..U+000D, U+001C..U+0020, U+0085, U+00A0, U+1680,
    U+2000..U+200A, U+2028, U+2029, U+202F, U+205F and U+3000. *)
Definition is_space (c : char) : bool :=
  ((9 <=? c) && (c <=? 13)) || ((28 <=? c) && (c <=? 32))
  || (c =? 133) || (c =? 160) || (c =? 5760)
  || ((8192 <=? c) && (c <=? 8202))
  || (c =? 8232) || (c =? 8233) || (c =? 8239) || (c =? 8287)
  || (c =? 12288).

Definition is_lbracket (c : char) : bool := c =? LBRACKET.
Definition is_rbracket (c : char) : bool := c =? RBRACKET.
Definition not_rbracket (c : char) : bool := negb (c =? RBRACKET).
Definition is_dash (c : char) : bool := (c =? EN_DASH) || (c =? HYPHEN).

(** ** A backtracking matcher for the patterns of the source

    A pattern is run against the front of a string with a continuation
    for what follows it; the answer is the text left after the whole
    match, or [None].  The quantifiers are greedy and give characters
    back on failure, the way the [re] engine does. *)

Definition cont := pystr -> option pystr.

(** One character of a class. *)
Definition m_char (p : char -> bool) (k : cont) : cont :=
  fun s => match s with
           | c :: r => if p c then k r else None
           | [] => None
           end.

(** [p*]: as many characters of the class as possible, fewer if the
    continuation fails. *)
Fixpoint m_star (p : char -> bool) (k : cont) (s : pystr) : option pystr :=
  match s with
  | c :: r =>
      if p c then
        match m_star p k r with
        | Some rest => Some rest
        | None => k s
        end
      else k s
  | [] => k s
  end.

(** [p+] is one character of the class followed by [p*]. *)
Definition m_plus (p : char -> bool) (k : cont) : cont :=
  m_char p (m_star p k).

(** The pattern of line 30. *)
Definition citation_re : cont :=
  m_char is_lbracket
    (m_star is_space (m_plus not_rbracket (m_char is_rbracket Some))).

(** The pattern of line 32. *)
Definition spaces_re : cont := m_plus is_space Some.

(** A pattern never hands back more text than it was given, and these two
    consume at least one character. *)
Definition shrinks (k : cont) : Prop :=
  forall s r, k s = Some r -> (length r <= length s)%nat.

Lemma shrinks_Some : shrinks Some.
Proof. intros s r [= ->]. lia. Qed.

Lemma m_star_shrinks p k : shrinks k -> shrinks (m_star p k).
Proof.
  intros Hk s. induction s as [|c s IH]; intros r; simpl.
  - apply Hk.
  - destruct (p c); [|apply Hk].
    destruct (m_star p k s) as [x|] eqn:E.
    + intros [= <-]. specialize (IH x eq_refl). simpl. lia.
    + apply Hk.
Qed.

Lemma m_char_consumes p k s r :
  shrinks k -> m_char p k s = Some r -> (length r < length s)%nat.
Proof.
  intros Hk. destruct s as [|c s]; simpl; [discriminate|].
  destruct (p c); [|discriminate].
  intros H. apply Hk in H. lia.
Qed.

Lemma m_char_shrinks p k : shrinks k -> shrinks (m_char p k).
Proof. intros Hk s r H. apply m_char_consumes in H; [lia|done]. Qed.

Lemma citation_re_consumes s r :
  citation_re s = Some r -> (length r < length s)%nat.
Proof.
  apply m_char_consumes.
  do 2 (apply m_star_shrinks || apply m_char_shrinks).
  apply m_star_shrinks, m_char_shrinks, shrinks_Some.
Qed.

Lemma spaces_re_consumes s r :
  spaces_re s = Some r -> (length r < length s)%nat.
Proof. apply m_char_consumes, m_star_shrinks, shrinks_Some. Qed.

(** A compiled pattern: the matcher with the fact that a match is never
    empty, which is what lets the scan of [re.sub] advance. *)
Record regex := Regex {
  run : cont;
  run_consumes : forall s r, run s = Some r -> (length r < length s)%nat
}.

Definition CITATION : regex := Regex citation_re citation_re_consumes.
Definition SPACES : regex := Regex spaces_re spaces_re_consumes.

Definition inspect {A} (a : A) : {b | a = b} := exist _ a eq_refl.

(** [re.sub(pattern, repl, s)]: scan from the left; where the pattern
    matches, emit the replacement and go on after the match; elsewhere
    copy one character. *)
Equations? re_sub (re : regex) (repl s : pystr) : pystr by wf (length s) lt :=
  re_sub re repl [] := [];
  re_sub re repl (c :: r) with inspect (run re (c :: r)) := {
    | exist _ (Some rest) _ => repl ++ re_sub re repl rest
    | exist _ None _ => c :: re_sub re repl r }.
Proof. apply run_consumes in e. exact e. Qed.

(** [str.replace] of U+00A0 by a space (line 31). *)
Definition replace_nbsp (s : pystr) : pystr :=
  map (fun c => if c =? NBSP then SPACE else c) s.

(** [str.strip()] with no argument. *)
Fixpoint lstrip (s : pystr) : pystr :=
  match s with
  | c :: r => if is_space c then lstrip r else s
  | [] => []
  end.

Definition rstrip (s : pystr) : pystr := rev (lstrip (rev s)).

Definition strip (s : pystr) : pystr := rstrip (lstrip s).

(** [clean_text]; [None] is Python's [None]. *)
Definition clean_text (txt : option pystr) : pystr :=
  match txt with
  | None => []
  | Some txt =>
      let txt := re_sub CITATION [] txt in
      let txt := replace_nbsp txt in
      let txt := re_sub SPACES [SPACE] txt in
      strip txt
  end.

(** [join_and_clean]: an empty list of text nodes is falsy. *)
Definition join_and_clean (nodes : list pystr) : pystr :=
  match nodes with
  | [] => []
  | _ => clean_text (Some (concat nodes))
  end.

(** ** The parsed document

    What [html.fromstring] returns: a tree of elements (tag, attributes,
    children in document order) and text nodes. *)

Local Unset Elimination Schemes.
Inductive node :=
| Text (s : pystr)
| Elem (tag : string) (attrs : list (string * pystr)) (kids : list node).
Local Set Elimination Schemes.

(** Induction on the tree, with the property for every child. *)
Definition node_ind (P : node -> Prop)
    (HText : forall s, P (Text s))
    (HElem : forall tag attrs kids, Forall P kids -> P (Elem tag attrs kids))
  : forall n, P n :=
  fix go (n : node) : P n :=
    match n with
    | Text s => HText s
    | Elem tag attrs kids =>
        HElem tag attrs kids
          ((fix all (l : list node) : Forall P l :=
              match l with
              | [] => @List.Forall_nil node P
              | k :: l' => @List.Forall_cons node P k l' (go k) (all l')
              end) kids)
    end.

Definition children (n : node) : list node :=
  match n with
  | Text _ => []
  | Elem _ _ kids => kids
  end.

(** The name test of a step: [self::name]. *)
Definition is_elem (name : string) (n : node) : bool :=
  match n with
  | Text _ => false
  | Elem tag _ _ => String.eqb tag name
  end.

(** The text nodes of a subtree in document order, the root included. *)
Fixpoint texts (n : node) : list pystr :=
  match n with
  | Text s => [s]
  | Elem _ _ kids => flat_map texts kids
  end.

(** [n//text()]: the text nodes below [n]. *)
Definition descendant_text (n : node) : list pystr :=
  match n with
  | Text _ => []
  | Elem _ _ kids => flat_map texts kids
  end.

(** The XPath string-value of a node. *)
Definition string_value (n : node) : pystr := concat (texts n).

(** The string of [@name]: the attribute's value, or the empty string when
    the element has no such attribute. *)
Fixpoint attr (name : string) (attrs : list (string * pystr)) : pystr :=
  match attrs with
  | [] => []
  | (k, v) :: rest => if String.eqb k name then v else attr name rest
  end.

Fixpoint starts_with (needle hay : pystr) : bool :=
  match needle, hay with
  | [], _ => true
  | _ :: _, [] => false
  | a :: needle', b :: hay' => (a =? b) && starts_with needle' hay'
  end.

(** The XPath function [contains(hay, needle)]. *)
Fixpoint contains (hay needle : pystr) : bool :=
  starts_with needle hay
  || match hay with
     | [] => false
     | _ :: hay' => contains hay' needle
     end.

Definition CAPTION_PHRASE : pystr := lit "List of FIFA World Cup finals".

(** [descendant-or-self::caption[contains(.,'List of FIFA World Cup finals')]]
    is not empty. *)
Fixpoint has_caption (n : node) : bool :=
  match n with
  | Text _ => false
  | Elem tag _ kids =>
      (String.eqb tag "caption" && contains (string_value n) CAPTION_PHRASE)
      || existsb has_caption kids
  end.

(** The two predicates of [TABLE_XPATH] on a [table] element. *)
Definition is_target_table (n : node) : bool :=
  match n with
  | Text _ => false
  | Elem tag attrs kids =>
      String.eqb tag "table"
      && contains (attr "class" attrs) (lit "wikitable")
      && existsb has_caption kids
  end.

Fixpoint descendants_or_self (n : node) : list node :=
  n :: match n with
       | Text _ => []
       | Elem _ _ kids => flat_map descendants_or_self kids
       end.

(** [TABLE_XPATH]: every table of the document that passes both
    predicates, in document order. *)
Definition TABLE (doc : node) : list node :=
  List.filter is_target_table (descendants_or_self doc).

(** Where a node sits with respect to [TABLE_XPATH/tbody/tr]: directly
    under a table that [TABLE_XPATH] selects, directly under a [tbody] of
    such a table, or anywhere else. *)
Inductive place := Elsewhere | InTable | InTbody.

Definition place_below (here : place) (n : node) : place :=
  if is_target_table n then InTable
  else match here with
       | InTable => if is_elem "tbody" n then InTbody else Elsewhere
       | _ => Elsewhere
       end.

Definition selected_here (here : place) (n : node) : bool :=
  match here with
  | InTbody => is_elem "tr" n
  | _ => false
  end.

(** The node-set of [TABLE_XPATH/tbody/tr] in document order: one walk of
    the tree that keeps each [tr] whose parent is a [tbody] whose parent is
    selected by [TABLE_XPATH].  A node-set has no duplicates and the
    parenthesised expression numbers it in document order, whichever table
    a row belongs to. *)
Fixpoint table_rows (here : place) (n : node) : list node :=
  match n with
  | Text _ => []
  | Elem _ _ kids =>
      (if selected_here here n then [n] else [])
      ++ flat_map (table_rows (place_below here n)) kids
  end.

(** A predicate on [position()], which counts from 1. *)
Fixpoint keep_positions {A} (keep : nat -> bool) (pos : nat) (l : list A)
  : list A :=
  match l with
  | [] => []
  | x :: rest =>
      if keep pos then x :: keep_positions keep (S pos) rest
      else keep_positions keep (S pos) rest
  end.

(** [ROWS_1_TO_10_XPATH] evaluated at the document root. *)
Definition ROWS_1_TO_10 (doc : node) : list node :=
  keep_positions (fun pos => Nat.ltb 1 pos && Nat.leb pos 11) 1%nat
    (table_rows Elsewhere doc).

(** The row-relative paths.  [./*[self::th or self::td][1]] is the first
    child that is a header or data cell, [./td[k]] the k-th [td] child. *)
Definition is_cell (n : node) : bool := is_elem "th" n || is_elem "td" n.

Definition YEAR_REL (tr : node) : option node :=
  head (List.filter is_cell (children tr)).

Definition TD_REL (k : nat) (tr : node) : option node :=
  nth_error (List.filter (is_elem "td") (children tr)) (k - 1).

Definition WINNER_REL := TD_REL 1.
Definition SCORE_REL := TD_REL 2.
Definition RUNNERSUP_REL := TD_REL 3.

(** [tr.xpath(REL + "//text()")]. *)
Definition text_under (cell : option node) : list pystr :=
  match cell with
  | Some c => descendant_text c
  | None => []
  end.

Definition year_of (tr : node) : pystr :=
  join_and_clean (text_under (YEAR_REL tr)).
Definition winner_of (tr : node) : pystr :=
  join_and_clean (text_under (WINNER_REL tr)).
Definition score_of (tr : node) : pystr :=
  join_and_clean (text_under (SCORE_REL tr)).
Definition runnersup_of (tr : node) : pystr :=
  join_and_clean (text_under (RUNNERSUP_REL tr)).

Definition row := list pystr.
Definition grid := list row.

Definition HEADER : row :=
  [lit "year"; lit "winner"; lit "score"; lit "runners_up"].

Definition row_fields (tr : node) : row :=
  [year_of tr; winner_of tr; score_of tr; runnersup_of tr].

(** ** JSON documents, the working directory and the console *)

Local Unset Elimination Schemes.
Inductive json :=
| JString (s : pystr)
| JArray (items : list json)
| JObject (fields : list (string * json)).
Local Set Elimination Schemes.

(** How [json.dump] sees a list of lists of strings. *)
Definition grid_json (values : grid) : json :=
  JArray (map (fun r => JArray (map JString r)) values).

(** The dict literal of line 78; a dict keeps its keys in insertion
    order. *)
Definition append_body (range : pystr) (values : grid) : json :=
  JObject [("range"%string, JString range);
           ("majorDimension"%string, JString (lit "ROWS"));
           ("values"%string, grid_json values)].

Definition field (name : string) (doc : json) : option json :=
  match doc with
  | JObject fields => snd <$> List.find (fun kv => String.eqb (fst kv) name) fields
  | _ => None
  end.

(** A path as the program is given it: its components, the parts between
    the slashes, so that [data/values.json] is the list of [data] and
    [values.json], a doubled or trailing slash shows as an empty component
    and the empty string is the list of one empty component.  The keys of
    the map of files are the resolved paths, lists of plain names, counted
    from the working directory, which is taken to be the root of the tree
    that the map describes ([..] at the root stays at the root, a leading
    slash starts there); a path that stays below the working directory
    resolves in the same way wherever that directory is.  There are no
    symbolic links, no access is refused and every name is within the
    limits of the file system.  An entry is a directory or a regular
    file; the content of a file is the document that [json.dump]
    serialised into it, or, after a [json.dump] that failed half way, text
    that is no document. *)
Definition path := list string.

Inductive entry :=
| Dir
| File (content : json)
| Partial.

(** What the run prints: the warning of line 57, which names the year and
    the score of a row (the source formats both with [repr]; the event
    keeps the two strings), and the closing block of instructions, which
    names the two output paths. *)
Inductive event :=
| Warn (year score : pystr)
| Instructions (values_out body_out : path).

Record world := World {
  files : gmap path entry;
  console : list event
}.

Inductive exn :=
| ConnectionError
| HTTPError
| RuntimeError (msg : string)
| FileNotFoundError (p : path)
| FileExistsError (p : path)
| IsADirectoryError (p : path)
| NotADirectoryError (p : path)
| UnicodeEncodeError.

Inductive outcome (A : Type) :=
| Returned (a : A)
| Raised (e : exn).
Arguments Returned {A} a.
Arguments Raised {A} e.

(** A computation runs in a world and either returns or raises; what it
    did to the world before raising stays done. *)
Definition io (A : Type) : Type := world -> outcome A * world.

#[global] Instance io_ret : MRet io := fun A a w => (Returned a, w).

#[global] Instance io_bind : MBind io := fun A B f m w =>
  match m w with
  | (Returned a, w') => f a w'
  | (Raised e, w') => (Raised e, w')
  end.

Definition raise {A} (e : exn) : io A := fun w => (Raised e, w).

Definition print (ev : event) : io unit := fun w =>
  (Returned tt, World (files w) (console w ++ [ev])).

(** [os.makedirs(base/rest, exist_ok=True)], [base] being a directory:
    missing components are created from the left; a component that is a
    regular file stops it. *)
Fixpoint makedirs_from (base rest : path) (fs : gmap path entry)
  : outcome unit * gmap path entry :=
  match rest with
  | [] => (Returned tt, fs)
  | c :: rest' =>
      let p := base ++ [c] in
      match fs !! p with
      | None => makedirs_from p rest' (<[p := Dir]> fs)
      | Some Dir => makedirs_from p rest' fs
      | Some _ =>
          (Raised (match rest' with
                   | [] => FileExistsError p
                   | _ => NotADirectoryError p
                   end), fs)
      end
  end.

Definition makedirs (p : path) : io unit := fun w =>
  let '(r, fs) := makedirs_from [] p (files w) in
  (r, World fs (console w)).

(** Why a directory of a path cannot be entered. *)
Inductive walk_error :=
| ENOENT
| ENOTDIR.

(** The components that name the directory one is in. *)
Definition stays (c : string) : bool := String.eqb c "" || String.eqb c ".".

(** The directory that the components lead to from [cur]: a name must be
    a directory of the map. *)
Fixpoint walk_dirs (fs : gmap path entry) (cur comps : path)
  : walk_error + path :=
  match comps with
  | [] => inr cur
  | c :: rest =>
      if stays c then walk_dirs fs cur rest
      else if String.eqb c ".." then walk_dirs fs (removelast cur) rest
      else
        match fs !! ((cur ++ [c]) : path) with
        | Some Dir => walk_dirs fs (cur ++ [c]) rest
        | Some _ => inl ENOTDIR
        | None => inl ENOENT
        end
  end.

(** A path without its trailing slashes. *)
Fixpoint drop_trailing_empty (p : path) : path :=
  match p with
  | [] => []
  | c :: rest =>
      match drop_trailing_empty rest with
      | [] => if String.eqb c "" then [] else [c]
      | rest' => c :: rest'
      end
  end.

(** [open(p, "w")] as Linux decides it: the key of the file to write, or
    the error.  The empty string names nothing; the directories of the
    path are entered one by one; a path that ends in a slash, in [.] or in
    [..], or that names a directory, is refused as a directory. *)
Definition open_w (fs : gmap path entry) (p : path) : exn + path :=
  if bool_decide (p = [""%string]) then inl (FileNotFoundError p)
  else
    let q := drop_trailing_empty p in
    match q with
    | [] => inl (IsADirectoryError p)
    | _ =>
        match walk_dirs fs [] (removelast q) with
        | inl ENOENT => inl (FileNotFoundError p)
        | inl ENOTDIR => inl (NotADirectoryError p)
        | inr dir =>
            let name := List.last q ""%string in
            if negb (bool_decide (q = p))
               || String.eqb name "." || String.eqb name ".."
            then inl (IsADirectoryError p)
            else
              match fs !! ((dir ++ [name]) : path) with
              | Some Dir => inl (IsADirectoryError p)
              | _ => inr (dir ++ [name])
              end
        end
    end.

(** What the UTF-8 codec of the file accepts: every code point but the
    surrogates. *)
Definition utf8_char (c : char) : bool :=
  (c <? 55296) || ((57343 <? c) && (c <? 1114112)).

Definition utf8_ok (s : pystr) : bool := forallb utf8_char s.

(** With [ensure_ascii=False] the strings of a document are written as
    they are; the keys of the two documents are ASCII. *)
Fixpoint json_utf8_ok (doc : json) : bool :=
  match doc with
  | JString s => utf8_ok s
  | JArray items => forallb json_utf8_ok items
  | JObject fields => forallb (fun kv => json_utf8_ok (snd kv)) fields
  end.

(** [with open(p, "w", encoding="utf-8") as f: json.dump(doc, f, ...)]:
    [open] creates the file or empties the one that is there; [json.dump]
    then writes the document, or raises [UnicodeEncodeError] at the first
    string that the codec refuses and leaves the file unfinished. *)
Definition write_json (p : path) (doc : json) : io unit := fun w =>
  match open_w (files w) p with
  | inl e => (Raised e, w)
  | inr t =>
      if json_utf8_ok doc
      then (Returned tt, World (<[t := File doc]> (files w)) (console w))
      else (Raised UnicodeEncodeError,
            World (<[t := Partial]> (files w)) (console w))
  end.

(** ** The program *)

(** What [requests.get] came back with, the body already parsed. *)
Inductive fetched :=
| Unreachable
| BadStatus
| Page (doc : node).

Definition get_and_parse (resp : fetched) : io node :=
  match resp with
  | Unreachable => raise ConnectionError
  | BadStatus => raise HTTPError
  | Page doc => mret doc
  end.

Definition NO_ROWS_MESSAGE : string :=
  "Could not locate finals table rows with XPath. Page structure may have changed.".

Definition re_found (m : option pystr) : bool :=
  match m with
  | Some _ => true
  | None => false
  end.

(** [re.search]: the first position, from the left, where the pattern
    matches; here only whether there is one. *)
Fixpoint re_search (re : cont) (s : pystr) : bool :=
  re_found (re s)
  || match s with
     | [] => false
     | _ :: r => re_search re r
     end.

(** The parsed command line; the URL only decides what is fetched. *)
Record args := Args {
  arg_range : pystr;
  arg_values_out : path;
  arg_body_out : path
}.

Definition RANGE_DEFAULT : pystr := lit "Sheet1!A:D".

(** The defaults of lines 65-67, [SHEET_RANGE] read from the
    environment. *)
Definition default_args (env_range : option pystr) : args :=
  Args (default RANGE_DEFAULT env_range)
       ["data"; "values.json"]%string
       ["data"; "append_body.json"]%string.

Section Scraper.

(** The [\d] class of a [str] pattern is the Unicode category Nd, a
    table of the interpreter's Unicode database. *)
Variable is_digit : char -> bool.

(** The pattern of line 56. *)
Definition score_re : cont :=
  m_plus is_digit
    (m_star is_space
       (m_char is_dash (m_star is_space (m_plus is_digit Some)))).

(** The body of the loop of lines 49-59, the list [values] threaded
    through. *)
Fixpoint scrape_rows (rows : list node) (values : grid) : io grid :=
  match rows with
  | [] => mret values
  | tr :: rest =>
      let year := year_of tr in
      let winner := winner_of tr in
      let score := score_of tr in
      let runnersup := runnersup_of tr in
      (if negb (re_search score_re score)
       then print (Warn year score)
       else mret tt) ;;
      scrape_rows rest (values ++ [[year; winner; score; runnersup]])
  end.

Definition scrape_first10 (resp : fetched) : io grid :=
  doc ← get_and_parse resp;
  let rows := ROWS_1_TO_10 doc in
  match rows with
  | [] => raise (RuntimeError NO_ROWS_MESSAGE)
  | _ => scrape_rows rows [HEADER]
  end.

Definition main (a : args) (resp : fetched) : io unit :=
  values ← scrape_first10 resp;
  makedirs ["data"%string] ;;
  write_json (arg_values_out a) (grid_json values) ;;
  write_json (arg_body_out a) (append_body (arg_range a) values) ;;
  print (Instructions (arg_values_out a) (arg_body_out a)).

End Scraper.

(** The ASCII digits, which every version of the table contains. *)
Definition ascii_digit (c : char) : bool := (48 <=? c) && (c <=? 57).

(** ** A fixture page *)

Definition final_row (year winner score runner : pystr) : node :=
  Elem "tr" []
    [Elem "th" [("scope"%string, lit "row")]
       [Elem "a" [] [Text year]; Elem "sup" [] [Text (lit "[n 1]")]];
     Elem "td" [] [Text winner];
     Elem "td" [] [Text score];
     Elem "td" [] [Text runner]].

Definition header_row : node :=
  Elem "tr" []
    [Elem "th" [] [Text (lit "Year")]; Elem "th" [] [Text (lit "Winners")];
     Elem "th" [] [Text (lit "Score")]; Elem "th" [] [Text (lit "Runners-up")]].

Definition finals_table (body_rows : list node) : node :=
  Elem "table" [("class"%string, lit "sortable wikitable")]
    [Elem "caption" [] [Text (lit "List of FIFA World Cup finals")];
     Elem "tbody" [] body_rows].

Definition page_of (body_rows : list node) : node :=
  Elem "html" []
    [Elem "head" [] [Elem "title" [] [Text (lit "Finals")]];
     Elem "body" []
       [Elem "p" [] [Text (lit "Intro")]; finals_table body_rows]].

(** "4-2" with an en dash. *)
Definition score_4_2 : pystr := [52; EN_DASH; 50].

Definition data_row (i : nat) : node :=
  final_row (lit "19" ++ [N.of_nat (48 + i)]) (lit "Uruguay")
            score_4_2 (lit "Argentina").

Definition tbd_row : node :=
  final_row (lit "2030") (lit "TBD") (lit "TBD") (lit "TBD").

Definition empty_world : world := World ∅ [].

(** A page whose only table has no caption. *)
Definition page_without_caption : node :=
  Elem "html" []
    [Elem "body" []
       [Elem "table" [("class"%string, lit "wikitable")]
          [Elem "tbody" [] [header_row; data_row 0; data_row 1]]]].

(** The table of the end-to-end scenario: the header row, ten finals and
    one more row. *)
Definition twelve_rows : list node :=
  header_row :: map data_row (seq 0 10) ++ [tbd_row].

(** A row that starts with a data cell. *)
Definition row_without_header_cell : node :=
  Elem "tr" []
    [Elem "td" [] [Text (lit "1930")]; Elem "td" [] [Text (lit "Uruguay")];
     Elem "td" [] [Text score_4_2]; Elem "td" [] [Text (lit "Argentina")]].

(** A page whose last row has no score yet. *)
Definition page_with_tbd : node := page_of [header_row; data_row 0; tbd_row].

(** The paths given for a run into a directory [out]. *)
Definition args_into_out : args :=
  Args RANGE_DEFAULT ["out"; "values.json"]%string
       ["out"; "append_body.json"]%string.

(** A row with the year and the winner only, and a page that has it. *)
Definition row_of_two_cells : node :=
  Elem "tr" []
    [Elem "th" [] [Text (lit "2034")]; Elem "td" [] [Text (lit "TBD")]].

Definition page_with_short_row : node :=
  page_of [header_row; data_row 0; row_of_two_cells].

(** The grid of [page_with_tbd]. *)
Definition tbd_grid : grid :=
  [HEADER;
   [lit "190"; lit "Uruguay"; score_4_2; lit "Argentina"];
   [lit "2030"; lit "TBD"; lit "TBD"; lit "TBD"]].

(** Output paths that do not read as the keys they resolve to:
    [data/../values.json] and [./data/append_body.json]. *)
Definition args_with_dots : args :=
  Args RANGE_DEFAULT ["data"; ".."; "values.json"]%string
       ["."; "data"; "append_body.json"]%string.

(** A range with a lone surrogate, U+DCFF, as a command line that is not
    UTF-8 gives. *)
Definition args_with_surrogate : args :=
  Args (lit "S" ++ [56575]) ["data"; "values.json"]%string
       ["data"; "append_body.json"]%string.

(** * The vocabulary of the properties *)

(** ** Normalised text *)

(** A bracketed annotation somewhere in the text: an opening bracket, one
    or more characters other than the closing bracket, a closing
    bracket. *)
Definition has_citation (t : pystr) : Prop :=
  exists pre mid post,
    t = pre ++ LBRACKET :: mid ++ RBRACKET :: post
    /\ mid ≠ [] /\ RBRACKET ∉ mid.

(** Two whitespace characters in a row. *)
Definition has_space_run (t : pystr) : Prop :=
  exists pre a b post,
    t = pre ++ a :: b :: post /\ is_space a = true /\ is_space b = true.

Definition starts_blank (t : pystr) : bool :=
  match t with
  | c :: _ => is_space c
  | [] => false
  end.

Definition ends_blank (t : pystr) : bool := starts_blank (rev t).

(** Every opening bracket is closed at once or never. *)
Fixpoint cite_free (u : pystr) : Prop :=
  match u with
  | [] => True
  | c :: r =>
      (c = LBRACKET -> head r = Some RBRACKET \/ RBRACKET ∉ r)
      /\ cite_free r
  end.

(** Every whitespace character is a space and stands alone. *)
Fixpoint tidy (u : pystr) : Prop :=
  match u with
  | [] => True
  | c :: r =>
      (is_space c = true -> c = SPACE /\ starts_blank r = false) /\ tidy r
  end.

(** The text after the first closing bracket. *)
Fixpoint after_rbracket (s : pystr) : option pystr :=
  match s with
  | [] => None
  | c :: r => if c =? RBRACKET then Some r else after_rbracket r
  end.

(** Texts made of characters of one class. *)
Definition all_of (p : char -> bool) (s : pystr) : Prop :=
  Forall (fun c => p c = true) s.

(** Digits, optional whitespace, an en dash or a hyphen, optional
    whitespace, digits: somewhere in the text. *)
Definition score_shape (is_digit : char -> bool) (s : pystr) : Prop :=
  exists pre d1 w1 dash w2 d2 post,
    s = pre ++ d1 ++ w1 ++ dash :: w2 ++ d2 ++ post
    /\ d1 ≠ [] /\ all_of is_digit d1
    /\ all_of is_space w1
    /\ (dash = EN_DASH \/ dash = HYPHEN)
    /\ all_of is_space w2
    /\ d2 ≠ [] /\ all_of is_digit d2.

(** ** Rows and tables *)

(** Subtrees without any [table] element. *)
Fixpoint no_table (n : node) : bool :=
  match n with
  | Text _ => true
  | Elem tag _ kids => negb (String.eqb tag "table") && forallb no_table kids
  end.

(** *** Where the table sits

    A document around a table: the chain of elements from the root down to
    the table, each with the siblings before and after the next one. *)
Record frame := Frame {
  f_tag : string;
  f_attrs : list (string * pystr);
  f_before : list node;
  f_after : list node
}.

Definition wrap (f : frame) (n : node) : node :=
  Elem (f_tag f) (f_attrs f) (f_before f ++ n :: f_after f).

(** The outermost frame comes first. *)
Definition plug (ctx : list frame) (n : node) : node := foldr wrap n ctx.

(** A frame that brings no table of its own. *)
Definition plain_frame (f : frame) : bool :=
  negb (String.eqb (f_tag f) "table")
  && forallb no_table (f_before f) && forallb no_table (f_after f).

(** The positions kept by [ROWS_1_TO_10_XPATH]. *)
Definition in_slice (pos : nat) : bool := Nat.ltb 1 pos && Nat.leb pos 11.

(** What one row prints. *)
Definition row_warning (is_digit : char -> bool) (tr : node) : list event :=
  if re_search (score_re is_digit) (score_of tr) then []
  else [Warn (year_of tr) (score_of tr)].

(** What a row may print: nothing when its score has the shape, one
    warning naming its year otherwise. *)
Definition row_report (is_digit : char -> bool) (tr : node)
    (out : list event) : Prop :=
  (score_shape is_digit (score_of tr) /\ out = [])
  \/ (~ score_shape is_digit (score_of tr)
      /\ out = [Warn (year_of tr) (score_of tr)]).

(** ** Files *)

(** The key that a path resolves to when every directory on its way is
    there: [.] and empty components dropped, [..] taking back the name
    before it. *)
Fixpoint norm (cur comps : path) : path :=
  match comps with
  | [] => cur
  | c :: rest =>
      if stays c then norm cur rest
      else if String.eqb c ".." then norm (removelast cur) rest
      else norm (cur ++ [c]) rest
  end.

Definition canonical (p : path) : path := norm [] p.

(** A path that stays below the directory it starts from: no [..] of it
    climbs above that directory, and it does not start with a slash.  For
    such a path it does not matter where the working directory is. *)
Fixpoint climbs_not (depth : nat) (comps : path) : bool :=
  match comps with
  | [] => true
  | c :: rest =>
      if stays c then climbs_not depth rest
      else if String.eqb c ".." then
        match depth with
        | O => false
        | S d => climbs_not d rest
        end
      else climbs_not (S depth) rest
  end.

Definition absolute (p : path) : bool :=
  match p with
  | c :: _ :: _ => String.eqb c ""
  | _ => false
  end.

Definition below (p : path) : bool := negb (absolute p) && climbs_not 0 p.

(** [open(p, "w")] in a process whose working directory is [cwd], the
    keys of the map being counted from the root of the file system: a
    path that starts with a slash is resolved from the root, any other
    from [cwd]. *)
Definition open_at (cwd : path) (fs : gmap path entry) (p : path)
  : exn + path :=
  if bool_decide (p = [""%string]) then inl (FileNotFoundError p)
  else
    let q := drop_trailing_empty p in
    match q with
    | [] => inl (IsADirectoryError p)
    | _ =>
        match walk_dirs fs (if absolute p then [] else cwd) (removelast q) with
        | inl ENOENT => inl (FileNotFoundError p)
        | inl ENOTDIR => inl (NotADirectoryError p)
        | inr dir =>
            let name := List.last q ""%string in
            if negb (bool_decide (q = p))
               || String.eqb name "." || String.eqb name ".."
            then inl (IsADirectoryError p)
            else
              match fs !! ((dir ++ [name]) : path) with
              | Some Dir => inl (IsADirectoryError p)
              | _ => inr (dir ++ [name])
              end
        end
    end.

(** The part of a file system [whole] that lies below [cwd]. *)
Definition subtree_at (cwd : path) (whole fs : gmap path entry) : Prop :=
  forall q : path, whole !! ((cwd ++ q) : path) = fs !! q.

(** Two states of the working directory with the same directories. *)
Definition same_dirs (fs1 fs2 : gmap path entry) : Prop :=
  forall q : path, fs1 !! q = Some Dir <-> fs2 !! q = Some Dir.

(** [data] is a directory or is not there. *)
Definition data_free (fs : gmap path entry) : Prop :=
  fs !! (["data"%string] : path) = None
  \/ fs !! (["data"%string] : path) = Some Dir.

(** Reading a document back as a grid of strings. *)
Definition as_string (doc : json) : option pystr :=
  match doc with
  | JString s => Some s
  | _ => None
  end.

Definition as_row (doc : json) : option row :=
  match doc with
  | JArray items => mapM as_string items
  | _ => None
  end.

Definition as_grid (doc : json) : option grid :=
  match doc with
  | JArray items => mapM as_row items
  | _ => None
  end.

(** * Properties *)

(** ** [clean_text] on two inputs *)

Example clean_text_ex1 :
  clean_text (Some (lit " Brazil[1] [ note 2 ]  wins ")) = lit "Brazil wins".
Proof. vm_compute. reflexivity. Qed.

Example clean_text_ex2 :
  clean_text (Some (lit "[]a[[b]c] x[")) = lit "[]ac] x[".
Proof. vm_compute. reflexivity. Qed.

(** ** The scan of [re.sub] *)

Lemma re_sub_nil re repl : re_sub re repl [] = [].
Proof. by simp re_sub. Qed.

Lemma re_sub_cons re repl c r :
  re_sub re repl (c :: r) =
  match run re (c :: r) with
  | Some rest => repl ++ re_sub re repl rest
  | None => c :: re_sub re repl r
  end.
Proof.
  simp re_sub.
  generalize (inspect (run re (c :: r))). intros [[rest|] e].
  - simp re_sub. by rewrite e.
  - simp re_sub. by rewrite e.
Qed.

(** Reasoning about a scan follows its three cases. *)
Lemma re_sub_cases re repl (P : pystr -> pystr -> Prop) :
  P [] [] ->
  (forall c r rest out,
      run re (c :: r) = Some rest -> P rest out -> P (c :: r) (repl ++ out)) ->
  (forall c r out,
      run re (c :: r) = None -> P r out -> P (c :: r) (c :: out)) ->
  forall s, P s (re_sub re repl s).
Proof.
  intros Hnil Hhit Hmiss s.
  assert (H : forall n s, (length s < n)%nat -> P s (re_sub re repl s)).
  { clear s. induction n as [|n IH]; intros s Hs; [lia|].
    destruct s as [|c r]; [by rewrite re_sub_nil|].
    rewrite re_sub_cons. destruct (run re (c :: r)) as [rest|] eqn:E.
    - apply Hhit with rest; [done|]. apply IH.
      apply run_consumes in E. simpl in *. lia.
    - apply Hmiss; [done|]. apply IH. simpl in Hs. lia. }
  apply (H (S (length s))). lia.
Qed.

(** Where the pattern matches nowhere the text is left as it is. *)
Lemma re_sub_no_match re repl s :
  (forall t, t `suffix_of` s -> run re t = None) -> re_sub re repl s = s.
Proof.
  induction s as [|c r IH]; intros H; [apply re_sub_nil|].
  rewrite re_sub_cons, (H (c :: r)) by done.
  f_equal. apply IH. intros t Ht. apply H. by apply suffix_cons_r.
Qed.

(** ** The citation pattern *)

Lemma is_space_rbracket : is_space RBRACKET = false.
Proof. reflexivity. Qed.

Lemma is_space_lbracket : is_space LBRACKET = false.
Proof. reflexivity. Qed.

Lemma star_to_rbracket s :
  m_star not_rbracket (m_char is_rbracket Some) s = after_rbracket s.
Proof.
  induction s as [|c r IH]; [done|].
  simpl. unfold not_rbracket, is_rbracket in *.
  destruct (c =? RBRACKET); simpl; [done|].
  rewrite IH. by destruct (after_rbracket r).
Qed.

(** Leading whitespace of the annotation is no different from the rest of
    it: [\s*] followed by [[^]]+] matches what [[^]]+] matches. *)
Lemma star_space_absorbed s :
  m_star is_space (m_plus not_rbracket (m_char is_rbracket Some)) s
  = m_plus not_rbracket (m_char is_rbracket Some) s.
Proof.
  induction s as [|c r IH]; [done|].
  simpl. destruct (is_space c) eqn:Hc; [|done].
  rewrite IH. unfold m_plus at 1. unfold m_char at 1.
  destruct r as [|d r']; [done|].
  destruct (not_rbracket d) eqn:Hd; [|done].
  rewrite star_to_rbracket.
  destruct (after_rbracket r') as [x|] eqn:E; [|done].
  assert (c ≠ RBRACKET) by (intros ->; by rewrite is_space_rbracket in Hc).
  unfold m_plus, m_char, not_rbracket. simpl.
  destruct (N.eqb_spec c RBRACKET); [done|]. simpl.
  rewrite star_to_rbracket. simpl.
  unfold not_rbracket in Hd. destruct (d =? RBRACKET); [done|]. by rewrite E.
Qed.

Lemma citation_re_cons c r :
  citation_re (c :: r) =
  if c =? LBRACKET then
    match r with
    | d :: r' => if d =? RBRACKET then None else after_rbracket r'
    | [] => None
    end
  else None.
Proof.
  unfold citation_re. simpl. unfold is_lbracket.
  destruct (c =? LBRACKET); [|done].
  rewrite star_space_absorbed. unfold m_plus, m_char.
  destruct r as [|d r']; [done|].
  unfold not_rbracket. destruct (d =? RBRACKET); simpl; [done|].
  apply star_to_rbracket.
Qed.

Lemma after_rbracket_None r : after_rbracket r = None <-> RBRACKET ∉ r.
Proof.
  induction r as [|c r IH]; simpl.
  - split; [intros _; apply not_elem_of_nil|done].
  - destruct (N.eqb_spec c RBRACKET) as [->|Hc].
    + split; [done|]. intros H. exfalso. apply H. left.
    + rewrite IH, not_elem_of_cons. intuition congruence.
Qed.

Lemma after_rbracket_Some r rest :
  after_rbracket r = Some rest <->
  exists mid, r = mid ++ RBRACKET :: rest /\ RBRACKET ∉ mid.
Proof.
  revert rest. induction r as [|c r IH]; intros rest; simpl.
  - split; [done|]. intros (mid & H & _). by destruct mid.
  - destruct (N.eqb_spec c RBRACKET) as [->|Hc].
    + split.
      * intros [= ->]. exists []. split; [done|apply not_elem_of_nil].
      * intros ([|m mid] & H & Hm); simplify_eq/=; [done|].
        exfalso. apply Hm. left.
    + rewrite IH. split.
      * intros (mid & -> & Hm). exists (c :: mid). split; [done|].
        rewrite not_elem_of_cons. auto.
      * intros ([|m mid] & H & Hm); simplify_eq/=.
        exists mid. split; [done|]. rewrite not_elem_of_cons in Hm. tauto.
Qed.

(** The pattern matches exactly an opening bracket, one or more characters
    other than the closing bracket, and a closing bracket. *)
Lemma citation_re_Some s rest :
  citation_re s = Some rest <->
  exists mid, s = LBRACKET :: mid ++ RBRACKET :: rest
              /\ mid ≠ [] /\ RBRACKET ∉ mid.
Proof.
  destruct s as [|c r].
  { split; [done|]. by intros (? & ? & _). }
  rewrite citation_re_cons.
  destruct (N.eqb_spec c LBRACKET) as [->|Hc].
  2:{ split; [done|]. intros (? & H & _). by injection H. }
  destruct r as [|d r'].
  { split; [done|]. intros (mid & H & _). injection H as H. by destruct mid. }
  destruct (N.eqb_spec d RBRACKET) as [->|Hd].
  - split; [done|]. intros ([|m mid] & H & Hne & Hm); [done|].
    simplify_eq/=. exfalso. apply Hm. left.
  - rewrite after_rbracket_Some. split.
    + intros (mid & -> & Hm). exists (d :: mid).
      split; [done|]. split; [done|]. rewrite not_elem_of_cons. auto.
    + intros ([|m mid] & H & Hne & Hm); [done|]. simplify_eq/=.
      exists mid. split; [done|]. rewrite not_elem_of_cons in Hm. tauto.
Qed.

Lemma citation_re_None c r :
  citation_re (c :: r) = None <->
  (c = LBRACKET -> head r = Some RBRACKET \/ RBRACKET ∉ r).
Proof.
  rewrite citation_re_cons.
  destruct (N.eqb_spec c LBRACKET) as [->|Hc]; [|tauto].
  destruct r as [|d r']; simpl.
  { split; [|done]. intros _ _. right. apply not_elem_of_nil. }
  destruct (N.eqb_spec d RBRACKET) as [->|Hd].
  - split; [intros _ _; by left|done].
  - rewrite after_rbracket_None, not_elem_of_cons.
    split; [intros H _; right; split; [congruence|done]|].
    intros H. destruct (H eq_refl) as [[= E]|[_ Hr]]; [congruence|done].
Qed.

(** ** What normalised text looks like *)

Lemma cite_free_suffix p u : cite_free (p ++ u) -> cite_free u.
Proof. induction p as [|c p IH]; simpl; [done|]. intros [_ H]. auto. Qed.

Lemma cite_free_prefix p w : cite_free (p ++ w) -> cite_free p.
Proof.
  induction p as [|c p IH]; simpl; [done|].
  intros [Hc H]. split; [|auto].
  intros Hl. destruct (Hc Hl) as [Hh|Hn].
  - destruct p as [|d p]; [right; apply not_elem_of_nil|by left].
  - right. intros Hin. apply Hn. apply elem_of_app. by left.
Qed.

Lemma tidy_suffix p u : tidy (p ++ u) -> tidy u.
Proof. induction p as [|c p IH]; simpl; [done|]. intros [_ H]. auto. Qed.

Lemma tidy_prefix p w : tidy (p ++ w) -> tidy p.
Proof.
  induction p as [|c p IH]; simpl; [done|].
  intros [Hc H]. split; [|auto].
  intros Hs. destruct (Hc Hs) as [-> Hb]. split; [done|].
  by destruct p.
Qed.

Lemma cite_free_no_citation u : cite_free u -> ~ has_citation u.
Proof.
  intros Hu (pre & mid & post & -> & Hne & Hmid).
  apply cite_free_suffix in Hu. destruct Hu as [Hc _].
  destruct mid as [|m mid]; [done|].
  destruct (Hc eq_refl) as [Hh|Hn].
  - simpl in Hh. injection Hh as ->. apply Hmid. left.
  - apply Hn. simpl. right. apply elem_of_app. right. left.
Qed.

Lemma tidy_no_space_run u : tidy u -> ~ has_space_run u.
Proof.
  intros Hu (pre & a & b & post & -> & Ha & Hb).
  apply tidy_suffix in Hu. destruct Hu as [Hc _].
  destruct (Hc Ha) as [_ H]. simpl in H. congruence.
Qed.

(** ** Stripping *)

Lemma lstrip_split s :
  exists w, s = w ++ lstrip s /\ Forall (fun c => is_space c = true) w.
Proof.
  induction s as [|c r (w & Hr & Hw)]; simpl.
  - by exists [].
  - destruct (is_space c) eqn:Hc.
    + exists (c :: w). split; [by rewrite Hr at 1|by constructor].
    + by exists [].
Qed.

Lemma starts_blank_lstrip s : starts_blank (lstrip s) = false.
Proof.
  induction s as [|c r IH]; simpl; [done|].
  destruct (is_space c) eqn:Hc; [done|]. simpl. by rewrite Hc.
Qed.

Lemma lstrip_id s : starts_blank s = false -> lstrip s = s.
Proof. destruct s as [|c r]; simpl; [done|]. by intros ->. Qed.

Lemma rstrip_split s : exists w, s = rstrip s ++ w.
Proof.
  destruct (lstrip_split (rev s)) as (w & H & _).
  exists (rev w). unfold rstrip.
  rewrite <- rev_app_distr, <- H. by rewrite rev_involutive.
Qed.

Lemma ends_blank_rstrip s : ends_blank (rstrip s) = false.
Proof.
  unfold ends_blank, rstrip. rewrite rev_involutive.
  apply starts_blank_lstrip.
Qed.

Lemma rstrip_id s : ends_blank s = false -> rstrip s = s.
Proof.
  unfold ends_blank, rstrip. intros H.
  rewrite lstrip_id by done. apply rev_involutive.
Qed.

Lemma starts_blank_rstrip s :
  starts_blank s = false -> starts_blank (rstrip s) = false.
Proof.
  destruct (rstrip_split s) as (w & H). intros Hs.
  destruct (rstrip s) as [|c r]; [done|].
  rewrite H in Hs. exact Hs.
Qed.

Lemma strip_split s : exists w1 w2, s = w1 ++ strip s ++ w2.
Proof.
  destruct (lstrip_split s) as (w1 & H1 & _).
  destruct (rstrip_split (lstrip s)) as (w2 & H2).
  exists w1, w2. unfold strip. by rewrite <- H2.
Qed.

Lemma strip_edges s :
  starts_blank (strip s) = false /\ ends_blank (strip s) = false.
Proof.
  split.
  - apply starts_blank_rstrip, starts_blank_lstrip.
  - apply ends_blank_rstrip.
Qed.

Lemma strip_id s :
  starts_blank s = false -> ends_blank s = false -> strip s = s.
Proof.
  intros H1 H2. unfold strip. rewrite lstrip_id by done. by apply rstrip_id.
Qed.

(** ** The three rewriting steps of [clean_text] *)

Lemma after_rbracket_suffix r rest :
  after_rbracket r = Some rest -> forall x, x ∈ rest -> x ∈ r.
Proof.
  intros (mid & -> & _)%after_rbracket_Some x Hx.
  apply elem_of_app. right. by right.
Qed.

Lemma run_CITATION s : run CITATION s = citation_re s.
Proof. reflexivity. Qed.

Lemma run_SPACES s : run SPACES s = spaces_re s.
Proof. reflexivity. Qed.

Lemma sub_citation_spec s :
  let out := re_sub CITATION [] s in
  cite_free out
  /\ (forall x, x ∈ out -> x ∈ s)
  /\ (head s = Some RBRACKET -> head out = Some RBRACKET).
Proof.
  cbv zeta. apply re_sub_cases.
  - done.
  - intros c r rest out Hrun (Hfree & Hin & Hhead).
    rewrite run_CITATION in Hrun.
    apply citation_re_Some in Hrun as (mid & Hs & Hne & Hmid).
    injection Hs as -> ->. split; [done|]. split.
    + intros x Hx. right. apply elem_of_app. right. right. by apply Hin.
    + done.
  - intros c r out Hrun (Hfree & Hin & Hhead).
    rewrite run_CITATION in Hrun. split; [|split].
    + split; [|done]. intros Hc.
      destruct (proj1 (citation_re_None c r) Hrun Hc) as [Hh|Hn].
      * left. auto.
      * right. intros Hx. apply Hn. auto.
    + intros x [->|Hx]%elem_of_cons; [left|right; auto].
    + done.
Qed.

Lemma replace_nbsp_spec u :
  (NBSP ∉ replace_nbsp u) /\ (cite_free u -> cite_free (replace_nbsp u)).
Proof.
  unfold replace_nbsp.
  set (f := fun c : char => if c =? NBSP then SPACE else c).
  assert (Hf : forall c x, x ≠ SPACE -> f c = x -> c = x).
  { intros c x Hx. unfold f. destruct (N.eqb_spec c NBSP); congruence. }
  assert (Hin : forall x r, x ≠ SPACE -> x ∈ map f r -> x ∈ r).
  { intros x r Hx. induction r as [|c r IH]; simpl; [done|].
    intros [E|H]%elem_of_cons.
    - symmetry in E. apply Hf in E; [subst; left|done].
    - right. auto. }
  split.
  - intros H. induction u as [|c u IH]; simpl in H.
    + by apply elem_of_nil in H.
    + apply elem_of_cons in H as [E|H]; [|auto].
      unfold f in E. destruct (N.eqb_spec c NBSP); [discriminate E|congruence].
  - induction u as [|c r IH]; simpl; [done|].
    intros [Hc Hr]. split; [|auto].
    intros E. apply Hf in E; [|done].
    destruct (Hc E) as [Hh|Hn].
    + left. destruct r as [|d r]; [done|]. simpl in *.
      injection Hh as ->. done.
    + right. intros Hx. apply Hn. by apply Hin in Hx.
Qed.

Lemma m_star_spaces s : m_star is_space Some s = Some (lstrip s).
Proof.
  induction s as [|c r IH]; simpl; [done|].
  destruct (is_space c); [by rewrite IH|done].
Qed.

(** A run of whitespace is matched to its end. *)
Lemma spaces_re_cons c r :
  spaces_re (c :: r) = if is_space c then Some (lstrip r) else None.
Proof.
  unfold spaces_re, m_plus, m_char.
  destruct (is_space c); [apply m_star_spaces|done].
Qed.

Lemma lstrip_elem s x : x ∈ lstrip s -> x ∈ s.
Proof.
  destruct (lstrip_split s) as (w & H & _). intros Hx.
  rewrite H. apply elem_of_app. by right.
Qed.

Lemma sub_spaces_spec s :
  let out := re_sub SPACES [SPACE] s in
  tidy out
  /\ (starts_blank out = true -> starts_blank s = true)
  /\ (forall x, x ≠ SPACE -> x ∈ out -> x ∈ s)
  /\ (head s = Some RBRACKET -> head out = Some RBRACKET)
  /\ (cite_free s -> cite_free out).
Proof.
  cbv zeta. apply re_sub_cases.
  - done.
  - intros c r rest out Hrun (Htidy & Hblank & Hin & Hhead & Hfree).
    rewrite run_SPACES, spaces_re_cons in Hrun.
    destruct (is_space c) eqn:Hc; [|done]. injection Hrun as <-.
    split; [|split; [|split; [|split]]].
    + simpl. split; [|done]. intros _. split; [done|].
      destruct (starts_blank out) eqn:E; [|done].
      rewrite starts_blank_lstrip in Hblank. by specialize (Hblank eq_refl).
    + done.
    + intros x Hx [->|H]%elem_of_cons; [done|].
      right. apply lstrip_elem. auto.
    + intros [= ->]. by rewrite is_space_rbracket in Hc.
    + intros [_ H]. simpl. split; [done|].
      apply Hfree. destruct (lstrip_split r) as (w & Hw & _).
      rewrite Hw in H. by apply cite_free_suffix in H.
  - intros c r out Hrun (Htidy & Hblank & Hin & Hhead & Hfree).
    rewrite run_SPACES, spaces_re_cons in Hrun.
    destruct (is_space c) eqn:Hc; [done|].
    split; [|split; [|split; [|split]]].
    + simpl. split; [|done]. intros Hs. congruence.
    + simpl. congruence.
    + intros x Hx [->|H]%elem_of_cons; [left|right; auto].
    + done.
    + intros [Hcond H]. simpl. split; [|auto].
      intros Hl. destruct (Hcond Hl) as [Hh|Hn].
      * left. auto.
      * right. intros Hx. apply Hn. apply Hin; [done|exact Hx].
Qed.

(** ** [clean_text] *)

Lemma clean_text_normal txt :
  let t := clean_text txt in
  cite_free t /\ tidy t /\ (NBSP ∉ t)
  /\ starts_blank t = false /\ ends_blank t = false.
Proof.
  destruct txt as [s|]; simpl.
  2:{ split; [done|]. split; [done|]. split; [apply not_elem_of_nil|done]. }
  set (u1 := re_sub CITATION [] s).
  set (u2 := replace_nbsp u1).
  set (u3 := re_sub SPACES [SPACE] u2).
  destruct (sub_citation_spec s) as (F1 & _ & _).
  destruct (replace_nbsp_spec u1) as (N2 & F2).
  destruct (sub_spaces_spec u2) as (T3 & _ & I3 & _ & F3).
  destruct (strip_split u3) as (w1 & w2 & E).
  destruct (strip_edges u3) as (B1 & B2).
  fold u1 in F1. fold u2 in N2, F2. fold u3 in T3, I3, F3.
  specialize (F3 (F2 F1)).
  rewrite E in F3, T3.
  apply cite_free_suffix, cite_free_prefix in F3.
  apply tidy_suffix, tidy_prefix in T3.
  repeat split; try done.
  intros Hx. apply N2, I3; [done|].
  rewrite E. apply elem_of_app. right. apply elem_of_app. by left.
Qed.

Lemma cite_free_fixed u : cite_free u -> re_sub CITATION [] u = u.
Proof.
  intros Hu. apply re_sub_no_match. intros t [p ->].
  apply cite_free_suffix in Hu. rewrite run_CITATION.
  destruct t as [|c r]; [done|].
  apply citation_re_None. by destruct Hu.
Qed.

Lemma replace_nbsp_fixed u : NBSP ∉ u -> replace_nbsp u = u.
Proof.
  induction u as [|c r IH]; simpl; [done|].
  rewrite not_elem_of_cons. intros [Hc Hr].
  rewrite IH by done. destruct (N.eqb_spec c NBSP); congruence.
Qed.

Lemma tidy_fixed u : tidy u -> re_sub SPACES [SPACE] u = u.
Proof.
  induction u as [|c r IH]; [intros _; apply re_sub_nil|].
  intros [Hc Hr]. rewrite re_sub_cons, run_SPACES, spaces_re_cons.
  destruct (is_space c) eqn:Hs.
  - destruct (Hc eq_refl) as [-> Hb]. rewrite lstrip_id by done.
    simpl. f_equal. auto.
  - f_equal. auto.
Qed.

(** C9: absent input maps to the empty string: [clean_text(None)] is the
    empty string and so is [join_and_clean] of an empty list of nodes; both
    functions return a string on every path. *)
Theorem absent_input_is_empty_string :
  clean_text None = [] /\ join_and_clean [] = [].
Proof. split; reflexivity. Qed.

(** C4: whatever the input, the output of [clean_text] contains no
    bracketed annotation (opening bracket, one or more characters other
    than the closing bracket, closing bracket), no non-breaking space, no
    two whitespace characters in a row, and neither starts nor ends with
    whitespace. *)
Theorem clean_text_output_normalised (txt : option pystr) :
  ~ has_citation (clean_text txt)
  /\ (NBSP ∉ clean_text txt)
  /\ ~ has_space_run (clean_text txt)
  /\ starts_blank (clean_text txt) = false
  /\ ends_blank (clean_text txt) = false.
Proof.
  destruct (clean_text_normal txt) as (F & T & N & B1 & B2).
  split; [by apply cite_free_no_citation|].
  split; [done|].
  split; [by apply tidy_no_space_run|done].
Qed.

(** C5: [clean_text] is idempotent: cleaning cleaned text gives it back
    unchanged. *)
Theorem clean_text_idempotent (txt : option pystr) :
  clean_text (Some (clean_text txt)) = clean_text txt.
Proof.
  destruct (clean_text_normal txt) as (F & T & N & B1 & B2).
  set (t := clean_text txt) in *.
  unfold clean_text at 1.
  rewrite cite_free_fixed, replace_nbsp_fixed, tidy_fixed by done.
  by apply strip_id.
Qed.

(** ** The document tree *)

Lemma flat_map_nil {A B} (f : A -> list B) (l : list A) :
  Forall (fun x => f x = []) l -> flat_map f l = [].
Proof. induction 1 as [|x l Hx _ IH]; simpl; [done|]. by rewrite Hx, IH. Qed.

(** A document in which [TABLE_XPATH] selects nothing has no rows to
    offer. *)
Lemma no_target_no_rows n :
  (forall x, x ∈ descendants_or_self n -> is_target_table x = false) ->
  table_rows Elsewhere n = [].
Proof.
  induction n as [s|tag attrs kids IH] using node_ind; intros H; [done|].
  simpl. unfold place_below.
  rewrite (H (Elem tag attrs kids)) by (simpl; left).
  apply flat_map_nil. rewrite Forall_forall in IH |- *.
  intros k Hk. apply IH; [done|]. intros x Hx. apply H.
  simpl. right. apply list_elem_of_In, in_flat_map.
  exists k. by rewrite <- !list_elem_of_In.
Qed.

Lemma TABLE_nil doc :
  TABLE doc = [] ->
  forall x, x ∈ descendants_or_self doc -> is_target_table x = false.
Proof.
  unfold TABLE. intros H x Hx.
  destruct (is_target_table x) eqn:E; [|done].
  assert (Hin : In x (List.filter is_target_table (descendants_or_self doc))).
  { apply filter_In. split; [by apply list_elem_of_In|done]. }
  rewrite H in Hin. destruct Hin.
Qed.

Lemma no_table_not_target n : no_table n = true -> is_target_table n = false.
Proof.
  destruct n as [s|tag attrs kids]; simpl; [done|].
  destruct (String.eqb tag "table"); [done|done].
Qed.

Lemma no_table_rows_elsewhere n :
  no_table n = true -> table_rows Elsewhere n = [].
Proof.
  induction n as [s|tag attrs kids IH] using node_ind; intros H; [done|].
  simpl. unfold place_below. rewrite (no_table_not_target _ H).
  simpl in H. apply andb_true_iff in H as [_ H].
  rewrite forallb_forall in H.
  apply flat_map_nil. rewrite Forall_forall in IH |- *.
  intros k Hk. apply IH; [done|]. apply H. by apply list_elem_of_In.
Qed.

Lemma no_table_kids tag attrs kids :
  no_table (Elem tag attrs kids) = true ->
  Forall (fun k => table_rows Elsewhere k = []) kids.
Proof.
  simpl. intros [_ H]%andb_true_iff. rewrite forallb_forall in H.
  apply Forall_forall. intros k Hk.
  apply no_table_rows_elsewhere, H. by apply list_elem_of_In.
Qed.

Lemma no_table_rows_in_tbody n :
  no_table n = true ->
  table_rows InTbody n = if is_elem "tr" n then [n] else [].
Proof.
  destruct n as [s|tag attrs kids]; intros H; [done|].
  simpl. unfold place_below. rewrite (no_table_not_target _ H).
  rewrite (flat_map_nil _ _ (no_table_kids _ _ _ H)).
  by rewrite app_nil_r.
Qed.

Lemma no_table_rows_in_table n :
  no_table n = true -> is_elem "tbody" n = false ->
  table_rows InTable n = [].
Proof.
  destruct n as [s|tag attrs kids]; intros H Hb; [done|].
  simpl. unfold place_below. rewrite (no_table_not_target _ H), Hb.
  apply flat_map_nil, (no_table_kids _ _ _ H).
Qed.

Lemma rows_of_tbody_kids kids :
  forallb no_table kids = true ->
  flat_map (table_rows InTbody) kids = List.filter (is_elem "tr") kids.
Proof.
  induction kids as [|k kids IH]; simpl; [done|].
  intros [Hk H]%andb_true_iff.
  rewrite no_table_rows_in_tbody, IH by done.
  by destruct (is_elem "tr" k).
Qed.

Lemma flat_map_rows_elsewhere kids :
  forallb no_table kids = true -> flat_map (table_rows Elsewhere) kids = [].
Proof.
  intros H. rewrite forallb_forall in H.
  apply flat_map_nil, Forall_forall. intros k Hk.
  apply no_table_rows_elsewhere, H. by apply list_elem_of_In.
Qed.

Lemma table_rows_Elem here tag attrs kids :
  table_rows here (Elem tag attrs kids) =
  (if selected_here here (Elem tag attrs kids)
   then [Elem tag attrs kids] else [])
  ++ flat_map (table_rows (place_below here (Elem tag attrs kids))) kids.
Proof. reflexivity. Qed.

Lemma place_below_other tag attrs kids :
  String.eqb tag "table" = false ->
  place_below Elsewhere (Elem tag attrs kids) = Elsewhere.
Proof. intros H. unfold place_below, is_target_table. by rewrite H. Qed.

Lemma table_rows_plug ctx n :
  forallb plain_frame ctx = true ->
  table_rows Elsewhere (plug ctx n) = table_rows Elsewhere n.
Proof.
  induction ctx as [|f ctx IH]; [done|].
  intros [Hf Hctx]%andb_true_iff.
  unfold plain_frame in Hf.
  apply andb_true_iff in Hf as [[Ht Hb]%andb_true_iff Ha].
  apply negb_true_iff in Ht.
  change (plug (f :: ctx) n) with (wrap f (plug ctx n)).
  unfold wrap. rewrite table_rows_Elem, place_below_other by done.
  rewrite flat_map_app. cbn [flat_map selected_here].
  rewrite !flat_map_rows_elsewhere by done.
  rewrite app_nil_r. simpl. auto.
Qed.

(** The rows of one table with a single [tbody], nothing else in it
    holding a table. *)
Lemma table_rows_of_table tattrs tpre tpost battrs bkids :
  is_target_table (Elem "table" tattrs (tpre ++ Elem "tbody" battrs bkids :: tpost))
    = true ->
  forallb (fun n => no_table n && negb (is_elem "tbody" n)) (tpre ++ tpost)
    = true ->
  forallb no_table bkids = true ->
  table_rows Elsewhere
    (Elem "table" tattrs (tpre ++ Elem "tbody" battrs bkids :: tpost))
  = List.filter (is_elem "tr") bkids.
Proof.
  intros Ht Hsib Hkids.
  rewrite table_rows_Elem. unfold place_below at 1. rewrite Ht.
  rewrite forallb_app in Hsib. apply andb_true_iff in Hsib as [Hpre Hpost].
  assert (Hnone : forall l,
    forallb (fun n => no_table n && negb (is_elem "tbody" n)) l = true ->
    flat_map (table_rows InTable) l = []).
  { intros l Hl. rewrite forallb_forall in Hl.
    apply flat_map_nil, Forall_forall. intros k Hk.
    apply list_elem_of_In, Hl, andb_true_iff in Hk as [H1 H2].
    apply no_table_rows_in_table; [done|]. by apply negb_true_iff. }
  rewrite flat_map_app. cbn [flat_map selected_here].
  rewrite !Hnone by done. rewrite app_nil_r. cbn [app].
  rewrite table_rows_Elem.
  assert (Hbody : place_below InTable (Elem "tbody" battrs bkids) = InTbody)
    by done.
  rewrite Hbody. cbn [selected_here app].
  by apply rows_of_tbody_kids.
Qed.

(** ** The positional slice *)

Lemma keep_positions_from pos (l : list node) :
  (2 <= pos)%nat ->
  keep_positions in_slice pos l = take (12 - pos) l.
Proof.
  revert pos. induction l as [|x l IH]; intros pos Hpos; simpl.
  - by rewrite take_nil.
  - unfold in_slice at 1.
    destruct (Nat.ltb_spec 1 pos); [|lia].
    destruct (Nat.leb_spec pos 11); simpl.
    + rewrite IH by lia. replace (12 - pos)%nat with (S (12 - S pos)) by lia.
      done.
    + rewrite IH by lia. replace (12 - pos)%nat with 0%nat by lia.
      replace (12 - S pos)%nat with 0%nat by lia. done.
Qed.

(** Positions 2 to 11: drop the first row, keep the next ten. *)
Lemma ROWS_1_TO_10_slice doc :
  ROWS_1_TO_10 doc = take 10 (drop 1 (table_rows Elsewhere doc)).
Proof.
  unfold ROWS_1_TO_10. fold in_slice.
  destruct (table_rows Elsewhere doc) as [|r1 rest]; [done|].
  simpl. apply keep_positions_from. lia.
Qed.

(** ** Running the scraper *)

Lemma world_eta w : World (files w) (console w) = w.
Proof. by destruct w. Qed.

Section Run.

Variable is_digit : char -> bool.

Lemma scrape_rows_run rows values w :
  scrape_rows is_digit rows values w =
  (Returned (values ++ map row_fields rows),
   World (files w) (console w ++ flat_map (row_warning is_digit) rows)).
Proof.
  revert values w. induction rows as [|tr rows IH]; intros values w.
  - simpl. by rewrite !app_nil_r, world_eta.
  - cbn [scrape_rows map flat_map].
    unfold mbind, io_bind, row_warning.
    destruct (re_search (score_re is_digit) (score_of tr)); simpl.
    + rewrite IH. by rewrite <- app_assoc.
    + rewrite IH. simpl. by rewrite <- !app_assoc.
Qed.

Lemma scrape_first10_run doc w :
  scrape_first10 is_digit (Page doc) w =
  match ROWS_1_TO_10 doc with
  | [] => (Raised (RuntimeError NO_ROWS_MESSAGE), w)
  | rows =>
      (Returned (HEADER :: map row_fields rows),
       World (files w) (console w ++ flat_map (row_warning is_digit) rows))
  end.
Proof.
  unfold scrape_first10, mbind, io_bind. simpl.
  destruct (ROWS_1_TO_10 doc) as [|tr rows]; [done|].
  by rewrite scrape_rows_run.
Qed.

Lemma scrape_first10_files resp w :
  files (snd (scrape_first10 is_digit resp w)) = files w.
Proof.
  destruct resp as [| |doc]; [done|done|].
  rewrite scrape_first10_run. by destruct (ROWS_1_TO_10 doc).
Qed.

End Run.

Lemma main_raises_with_scraper is_digit a resp w e w' :
  scrape_first10 is_digit resp w = (Raised e, w') ->
  main is_digit a resp w = (Raised e, w').
Proof. intros H. unfold main, mbind, io_bind. by rewrite H. Qed.

(** ** The row extractor *)

(** C6: when no table of the document passes the class-and-caption query,
    [scrape_first10] raises the structure-mismatch error and the run stops
    there: [main] raises the same error and leaves the world as it found
    it, so no file is written and no directory is created. *)
Theorem missing_table_is_fatal is_digit a doc w :
  TABLE doc = [] ->
  scrape_first10 is_digit (Page doc) w
    = (Raised (RuntimeError NO_ROWS_MESSAGE), w)
  /\ main is_digit a (Page doc) w
    = (Raised (RuntimeError NO_ROWS_MESSAGE), w).
Proof.
  intros H.
  assert (Hs : scrape_first10 is_digit (Page doc) w
               = (Raised (RuntimeError NO_ROWS_MESSAGE), w)).
  { rewrite scrape_first10_run, ROWS_1_TO_10_slice.
    rewrite no_target_no_rows by (by apply TABLE_nil). done. }
  split; [done|]. by apply main_raises_with_scraper.
Qed.

Lemma missing_table_is_fatal_witness :
  TABLE page_without_caption = []
  /\ scrape_first10 ascii_digit (Page page_without_caption) empty_world
     = (Raised (RuntimeError NO_ROWS_MESSAGE), empty_world)
  /\ main ascii_digit (default_args None) (Page page_without_caption)
       empty_world
     = (Raised (RuntimeError NO_ROWS_MESSAGE), empty_world).
Proof.
  split; [reflexivity|].
  apply (missing_table_is_fatal ascii_digit (default_args None)
           page_without_caption empty_world).
  reflexivity.
Defined.

(** C2: a document holding one wikitable whose caption contains the phrase
    and whose body has twelve rows: the rows extracted are rows 2 to 11, in
    document order, and the grid returned is the header followed by their
    fields; row 12 plays no part.  The table may sit anywhere in the
    document, among siblings that hold no table. *)
Theorem twelve_rows_give_rows_2_to_11
    is_digit ctx tattrs tpre tpost cap battrs bkids r1 mid r12 w :
  forallb plain_frame ctx = true ->
  contains (attr "class" tattrs) (lit "wikitable") = true ->
  In cap (tpre ++ tpost) ->
  is_elem "caption" cap = true ->
  contains (string_value cap) CAPTION_PHRASE = true ->
  forallb (fun n => no_table n && negb (is_elem "tbody" n)) (tpre ++ tpost)
    = true ->
  forallb no_table bkids = true ->
  List.filter (is_elem "tr") bkids = r1 :: mid ++ [r12] ->
  length mid = 10%nat ->
  let doc :=
    plug ctx (Elem "table" tattrs (tpre ++ Elem "tbody" battrs bkids :: tpost))
  in
  ROWS_1_TO_10 doc = mid
  /\ fst (scrape_first10 is_digit (Page doc) w)
     = Returned (HEADER :: map row_fields mid).
Proof.
  intros Hctx Hclass Hcap Hcap1 Hcap2 Hsib Hkids Hrows Hlen doc.
  assert (Htarget : is_target_table
    (Elem "table" tattrs (tpre ++ Elem "tbody" battrs bkids :: tpost)) = true).
  { simpl. rewrite Hclass. simpl. apply existsb_exists. exists cap. split.
    - apply in_app_iff in Hcap. apply in_app_iff.
      destruct Hcap; [by left|right; by right].
    - destruct cap as [s|tag cattrs ckids]; [done|].
      simpl in Hcap1. simpl. by rewrite Hcap1, Hcap2. }
  assert (Hslice : ROWS_1_TO_10 doc = mid).
  { rewrite ROWS_1_TO_10_slice. unfold doc.
    rewrite table_rows_plug, table_rows_of_table, Hrows by done.
    replace (drop 1 (r1 :: mid ++ [r12])) with (mid ++ [r12]) by done.
    rewrite <- Hlen. apply take_app_length. }
  split; [done|].
  rewrite scrape_first10_run, Hslice.
  destruct mid; [done|done].
Qed.

Lemma twelve_rows_give_rows_2_to_11_witness :
  ROWS_1_TO_10 (page_of twelve_rows) = map data_row (seq 0 10)
  /\ fst (scrape_first10 ascii_digit (Page (page_of twelve_rows)) empty_world)
     = Returned (HEADER :: map row_fields (map data_row (seq 0 10))).
Proof.
  apply (twelve_rows_give_rows_2_to_11 ascii_digit
    [Frame "html" [] [Elem "head" [] [Elem "title" [] [Text (lit "Finals")]]] [];
     Frame "body" [] [Elem "p" [] [Text (lit "Intro")]] []]
    [("class"%string, lit "sortable wikitable")]
    [Elem "caption" [] [Text (lit "List of FIFA World Cup finals")]] []
    (Elem "caption" [] [Text (lit "List of FIFA World Cup finals")])
    [] twelve_rows header_row (map data_row (seq 0 10)) tbd_row empty_world).
  - reflexivity.
  - reflexivity.
  - simpl. by left.
  - reflexivity.
  - reflexivity.
  - reflexivity.
  - reflexivity.
  - reflexivity.
  - reflexivity.
Defined.

Lemma first_cell_is_first_td kids c :
  head (List.filter is_cell kids) = Some c ->
  is_elem "td" c = true ->
  nth_error (List.filter (is_elem "td") kids) 0 = Some c.
Proof.
  intros H Hc. induction kids as [|k kids IH]; simpl in *; [done|].
  unfold is_cell in H at 1.
  destruct (is_elem "td" k) eqn:Hk.
  - rewrite orb_true_r in H. simpl in H. by injection H as ->.
  - rewrite orb_false_r in H. destruct (is_elem "th" k) eqn:Hh; [|auto].
    simpl in H. injection H as ->. congruence.
Qed.

(** C10: in a row whose first cell is a data cell ([td]) and not a header
    cell ([th]), the year query and the winner query select the same cell,
    so the year field equals the winner field. *)
Theorem year_is_winner_when_first_cell_is_td tr c :
  YEAR_REL tr = Some c ->
  is_elem "td" c = true ->
  WINNER_REL tr = YEAR_REL tr /\ year_of tr = winner_of tr.
Proof.
  intros H Hc.
  assert (E : WINNER_REL tr = YEAR_REL tr).
  { rewrite H. unfold WINNER_REL, TD_REL. simpl.
    by apply first_cell_is_first_td. }
  split; [done|]. unfold year_of, winner_of. by rewrite E.
Qed.

Lemma year_is_winner_when_first_cell_is_td_witness :
  WINNER_REL row_without_header_cell = YEAR_REL row_without_header_cell
  /\ year_of row_without_header_cell = winner_of row_without_header_cell.
Proof.
  apply (year_is_winner_when_first_cell_is_td row_without_header_cell
           (Elem "td" [] [Text (lit "1930")])).
  - reflexivity.
  - reflexivity.
Defined.

(** X18: where the scraper draws the line: it raises when the query yields
    at most one row, and returns the header with up to ten rows
    otherwise. *)
Lemma scrape_first10_threshold is_digit doc w :
  let rows := table_rows Elsewhere doc in
  ((length rows <= 1)%nat ->
   fst (scrape_first10 is_digit (Page doc) w)
   = Raised (RuntimeError NO_ROWS_MESSAGE))
  /\ ((2 <= length rows)%nat ->
      exists values,
        fst (scrape_first10 is_digit (Page doc) w) = Returned values
        /\ length values = S (Nat.min 10 (length rows - 1))).
Proof.
  cbv zeta. rewrite scrape_first10_run, ROWS_1_TO_10_slice.
  destruct (table_rows Elsewhere doc) as [|r1 [|r2 rest]].
  - split; [done|]. simpl. lia.
  - split; [done|]. simpl. lia.
  - split; [simpl; lia|]. intros _.
    change (take 10 (drop 1 (r1 :: r2 :: rest))) with (r2 :: take 9 rest).
    eexists. split; [reflexivity|].
    cbn [length map]. rewrite length_map, length_take. lia.
Qed.

(** C1 fails on the code: a table with three body rows (the header row and
    two finals) makes [scrape_first10] return normally, with a grid of the
    header and two rows only. *)
Theorem short_table_returns_short_grid :
  let doc := page_of [header_row; data_row 0; data_row 1] in
  length (table_rows Elsewhere doc) = 3%nat
  /\ scrape_first10 ascii_digit (Page doc) empty_world
     = (Returned [HEADER;
                  [lit "190"; lit "Uruguay"; score_4_2; lit "Argentina"];
                  [lit "191"; lit "Uruguay"; score_4_2; lit "Argentina"]],
        empty_world).
Proof. split; vm_compute; reflexivity. Qed.

(** ** What the matcher accepts *)

Lemma m_char_found p k s :
  re_found (m_char p k s) = true <->
  exists c r, s = c :: r /\ p c = true /\ re_found (k r) = true.
Proof.
  destruct s as [|c r]; simpl.
  - split; [done|]. by intros (? & ? & ? & _).
  - destruct (p c) eqn:Hc.
    + split; [by exists c, r|]. by intros (? & ? & [= <- <-] & _ & ?).
    + split; [done|]. intros (? & ? & [= <- <-] & ? & _). congruence.
Qed.

Lemma m_star_found p k s :
  re_found (m_star p k s) = true <->
  exists pre r, s = pre ++ r /\ all_of p pre /\ re_found (k r) = true.
Proof.
  split.
  - induction s as [|c s IH]; simpl.
    + intros H. exists [], []. by repeat split; [constructor|].
    + destruct (p c) eqn:Hc.
      * destruct (m_star p k s) as [x|] eqn:E.
        -- intros _. destruct (IH eq_refl) as (pre & r & -> & Hpre & Hk).
           exists (c :: pre), r. repeat split; [by constructor|done].
        -- intros H. exists [], (c :: s). by repeat split; [constructor|].
      * intros H. exists [], (c :: s). by repeat split; [constructor|].
  - intros (pre & r & -> & Hpre & Hk).
    induction Hpre as [|c pre Hc _ IH]; simpl.
    + destruct r as [|d r]; simpl; [done|].
      destruct (p d); [|done]. by destruct (m_star p k r).
    + rewrite Hc. by destruct (m_star p k (pre ++ r)).
Qed.

Lemma m_plus_found p k s :
  re_found (m_plus p k s) = true <->
  exists pre r,
    s = pre ++ r /\ pre ≠ [] /\ all_of p pre /\ re_found (k r) = true.
Proof.
  unfold m_plus. rewrite m_char_found. split.
  - intros (c & t & -> & Hc & (pre & r & -> & Hpre & Hk)%m_star_found).
    exists (c :: pre), r. repeat split; [done|by constructor|done].
  - intros ([|c pre] & r & -> & Hne & Hpre & Hk); [done|].
    apply Forall_cons in Hpre as [Hc Hpre].
    exists c, (pre ++ r). repeat split; [done|].
    apply m_star_found. by exists pre, r.
Qed.

Lemma re_search_found re s :
  re_search re s = true <->
  exists pre t, s = pre ++ t /\ re_found (re t) = true.
Proof.
  split.
  - induction s as [|c s IH]; simpl.
    + rewrite orb_false_r. intros H. by exists [], [].
    + intros [H|H]%orb_true_iff.
      * by exists [], (c :: s).
      * destruct (IH H) as (pre & t & -> & Ht). by exists (c :: pre), t.
  - intros (pre & t & -> & Ht).
    induction pre as [|c pre IH]; simpl.
    + destruct t; simpl; rewrite Ht; done.
    + rewrite IH. apply orb_true_r.
Qed.

Lemma is_dash_spec c : is_dash c = true <-> c = EN_DASH \/ c = HYPHEN.
Proof.
  unfold is_dash. rewrite orb_true_iff, !N.eqb_eq. done.
Qed.

(** The search of line 56 finds a match exactly in the texts of that
    shape. *)
Lemma score_search_shape is_digit s :
  re_search (score_re is_digit) s = true <-> score_shape is_digit s.
Proof.
  rewrite re_search_found. unfold score_re, score_shape. split.
  - intros (pre & t & -> & H).
    apply m_plus_found in H as (d1 & t1 & -> & Hne1 & Hd1 & H).
    apply m_star_found in H as (w1 & t2 & -> & Hw1 & H).
    apply m_char_found in H as (dash & t3 & -> & Hdash & H).
    apply m_star_found in H as (w2 & t4 & -> & Hw2 & H).
    apply m_plus_found in H as (d2 & post & -> & Hne2 & Hd2 & _).
    exists pre, d1, w1, dash, w2, d2, post.
    rewrite is_dash_spec in Hdash. done.
  - intros (pre & d1 & w1 & dash & w2 & d2 & post
            & -> & Hne1 & Hd1 & Hw1 & Hdash & Hw2 & Hne2 & Hd2).
    exists pre, (d1 ++ w1 ++ dash :: w2 ++ d2 ++ post). split; [done|].
    apply m_plus_found. exists d1, (w1 ++ dash :: w2 ++ d2 ++ post).
    repeat split; [done..|].
    apply m_star_found. exists w1, (dash :: w2 ++ d2 ++ post).
    repeat split; [done|].
    apply m_char_found. exists dash, (w2 ++ d2 ++ post).
    repeat split; [by apply is_dash_spec|].
    apply m_star_found. exists w2, (d2 ++ post).
    repeat split; [done|].
    apply m_plus_found. by exists d2, post.
Qed.

(** ** The score check *)

Lemma row_warning_report is_digit tr :
  row_report is_digit tr (row_warning is_digit tr).
Proof.
  unfold row_report, row_warning.
  destruct (re_search (score_re is_digit) (score_of tr)) eqn:E.
  - left. by rewrite <- score_search_shape.
  - right. split; [|done]. rewrite <- score_search_shape. congruence.
Qed.

Lemma scrape_first10_returns is_digit resp w values w' :
  scrape_first10 is_digit resp w = (Returned values, w') ->
  exists rows,
    values = HEADER :: map row_fields rows
    /\ w' = World (files w)
               (console w ++ flat_map (row_warning is_digit) rows).
Proof.
  destruct resp as [| |doc]; [done|done|].
  rewrite scrape_first10_run.
  destruct (ROWS_1_TO_10 doc) as [|tr rows] eqn:E; [done|].
  intros [= <- <-]. by exists (tr :: rows).
Qed.

Lemma flat_map_concat_map {A B} (f : A -> list B) (l : list A) :
  flat_map f l = concat (map f l).
Proof. induction l as [|x l IH]; simpl; [done|]. by rewrite IH. Qed.

(** C7: when the scraper returns, the page was fetched, the grid is the
    header followed by the four fields of every row that
    [ROWS_1_TO_10_XPATH] selects, in order and whatever its score looks
    like, and what was printed is, row by row over those same rows, one
    warning naming the row's year exactly when its normalised score has no
    digits-dash-digits substring, and nothing otherwise. *)
Theorem score_warning_iff_shape_missing is_digit resp w values w' :
  scrape_first10 is_digit resp w = (Returned values, w') ->
  exists doc printed,
    resp = Page doc
    /\ values
       = HEADER
         :: map (fun tr =>
                   [year_of tr; winner_of tr; score_of tr; runnersup_of tr])
                (ROWS_1_TO_10 doc)
    /\ console w' = console w ++ concat printed
    /\ Forall2 (row_report is_digit) (ROWS_1_TO_10 doc) printed.
Proof.
  destruct resp as [| |doc]; [done|done|].
  rewrite scrape_first10_run.
  destruct (ROWS_1_TO_10 doc) as [|tr rows] eqn:E; [done|].
  intros [= <- <-].
  exists doc, (map (row_warning is_digit) (tr :: rows)).
  rewrite E. split; [done|]. split; [done|]. split.
  - cbn [console]. by rewrite flat_map_concat_map.
  - generalize (tr :: rows). intros l.
    induction l as [|x l IH]; cbn [map]; constructor; [|done].
    apply row_warning_report.
Qed.

Lemma score_warning_iff_shape_missing_witness :
  exists doc printed,
    Page page_with_tbd = Page doc
    /\ [HEADER;
        [lit "190"; lit "Uruguay"; score_4_2; lit "Argentina"];
        [lit "2030"; lit "TBD"; lit "TBD"; lit "TBD"]]
       = HEADER
         :: map (fun tr =>
                   [year_of tr; winner_of tr; score_of tr; runnersup_of tr])
                (ROWS_1_TO_10 doc)
    /\ [Warn (lit "2030") (lit "TBD")] = [] ++ concat printed
    /\ Forall2 (row_report ascii_digit) (ROWS_1_TO_10 doc) printed.
Proof.
  apply (score_warning_iff_shape_missing ascii_digit (Page page_with_tbd)
           empty_world _ (World ∅ [Warn (lit "2030") (lit "TBD")])).
  vm_compute. reflexivity.
Defined.

(** The two scores of the end-to-end scenario. *)
Example en_dash_score_passes :
  re_search (score_re ascii_digit) score_4_2 = true.
Proof. reflexivity. Qed.

Example tbd_score_warns :
  row_warning ascii_digit tbd_row = [Warn (lit "2030") (lit "TBD")]
  /\ row_fields tbd_row = [lit "2030"; lit "TBD"; lit "TBD"; lit "TBD"].
Proof. split; vm_compute; reflexivity. Qed.

(** ** The output builder *)

Lemma scrape_first10_files_eq is_digit resp w r w1 :
  scrape_first10 is_digit resp w = (r, w1) -> files w1 = files w.
Proof.
  intros H. rewrite <- (scrape_first10_files is_digit resp w). by rewrite H.
Qed.

Lemma norm_app cur a b : norm cur (a ++ b) = norm (norm cur a) b.
Proof.
  revert cur. induction a as [|c a IH]; intros cur; simpl; [done|].
  destruct (stays c); [done|]. by destruct (String.eqb c "..").
Qed.

Lemma walk_dirs_norm fs cur comps d :
  walk_dirs fs cur comps = inr d -> d = norm cur comps.
Proof.
  revert cur. induction comps as [|c rest IH]; intros cur; simpl.
  - by intros [= ->].
  - destruct (stays c); [apply IH|].
    destruct (String.eqb c ".."); [apply IH|].
    destruct (fs !! ((cur ++ [c]) : path)) as [[| |]|]; [apply IH|done..].
Qed.

Lemma walk_dirs_same_dirs fs1 fs2 cur comps d :
  same_dirs fs1 fs2 ->
  walk_dirs fs1 cur comps = inr d -> walk_dirs fs2 cur comps = inr d.
Proof.
  intros H. revert cur. induction comps as [|c rest IH]; intros cur; simpl;
    [done|].
  destruct (stays c); [apply IH|].
  destruct (String.eqb c ".."); [apply IH|].
  destruct (fs1 !! ((cur ++ [c]) : path)) as [[| |]|] eqn:E; [|done..].
  apply H in E. rewrite E. apply IH.
Qed.

Lemma same_dirs_sym fs1 fs2 : same_dirs fs1 fs2 -> same_dirs fs2 fs1.
Proof. intros H q. by rewrite (H q). Qed.

Lemma same_dirs_trans fs1 fs2 fs3 :
  same_dirs fs1 fs2 -> same_dirs fs2 fs3 -> same_dirs fs1 fs3.
Proof. intros H1 H2 q. by rewrite (H1 q), (H2 q). Qed.

(** Writing a regular file where no directory is keeps the directories. *)
Lemma same_dirs_insert fs (k : path) e :
  e ≠ Dir -> fs !! k ≠ Some Dir -> same_dirs fs (<[k := e]> fs).
Proof.
  intros He Hk q. destruct (decide (k = q)) as [<-|Hne].
  - rewrite lookup_insert_eq. split; [done|]. intros [= E]. done.
  - by rewrite lookup_insert_ne.
Qed.

Lemma open_w_target fs (p t : path) :
  open_w fs p = inr t ->
  exists dir name,
    p = removelast p ++ [name]
    /\ walk_dirs fs [] (removelast p) = inr dir
    /\ stays name = false /\ String.eqb name ".." = false
    /\ t = dir ++ [name] /\ fs !! t ≠ Some Dir.
Proof.
  unfold open_w. case_bool_decide as Hempty; [done|]. cbv zeta.
  destruct (drop_trailing_empty p) as [|c0 q0] eqn:Hq; [done|].
  remember (c0 :: q0) as q eqn:Eq.
  destruct (walk_dirs fs [] (removelast q)) as [[|]|dir] eqn:Hw;
    [done|done|].
  case_bool_decide as Hqp; cbn [negb orb]; [|done].
  set (name := List.last q ""%string) in *.
  destruct (String.eqb name ".") eqn:Hdot; cbn [orb]; [done|].
  destruct (String.eqb name "..") eqn:Hdd; [done|].
  intros Ht.
  assert (Hp : p = removelast p ++ [name]).
  { rewrite <- Hqp. unfold name. apply app_removelast_last. by rewrite Eq. }
  assert (Hne : String.eqb name "" = false).
  { destruct (String.eqb_spec name ""%string) as [E|]; [|done]. exfalso.
    assert (Hlast : forall l : path,
      drop_trailing_empty l ≠ [] ->
      List.last (drop_trailing_empty l) ""%string ≠ ""%string).
    { clear. induction l as [|c l IH]; simpl; [done|].
      destruct (drop_trailing_empty l) as [|c' l'] eqn:El.
      - destruct (String.eqb_spec c ""%string); [done|]. by intros _.
      - intros _. specialize (IH ltac:(done)). exact IH. }
    apply (Hlast p); rewrite Hq; [by rewrite Eq|exact E]. }
  exists dir, name.
  split; [done|]. split; [by rewrite <- Hqp|]. split.
  { unfold stays. by rewrite Hne, Hdot. }
  split; [done|].
  destruct (fs !! ((dir ++ [name]) : path)) as [[| |]|] eqn:E;
    [done| | |]; injection Ht as <-; by rewrite E.
Qed.

Lemma open_w_canonical fs (p t : path) :
  open_w fs p = inr t -> t = canonical p /\ fs !! t ≠ Some Dir.
Proof.
  intros (dir & name & Hp & Hw & Hs & Hd & -> & Hn)%open_w_target.
  split; [|done]. unfold canonical. rewrite Hp, norm_app.
  rewrite <- (walk_dirs_norm _ _ _ _ Hw). simpl. by rewrite Hs, Hd.
Qed.

Lemma open_w_same_dirs fs1 fs2 (p t : path) :
  same_dirs fs1 fs2 -> open_w fs1 p = inr t -> open_w fs2 p = inr t.
Proof.
  intros H. unfold open_w. case_bool_decide as Hempty; [done|]. cbv zeta.
  destruct (drop_trailing_empty p) as [|c0 q0] eqn:Hq; [done|].
  remember (c0 :: q0) as q eqn:Eq.
  destruct (walk_dirs fs1 [] (removelast q)) as [[|]|dir1] eqn:Hw1;
    [done|done|].
  apply (walk_dirs_same_dirs _ _ _ _ _ H) in Hw1. rewrite Hw1.
  match goal with
  | |- (if ?b then _ else _) = _ -> _ => destruct b; [done|]
  end.
  match goal with
  | |- match ?x with _ => _ end = _ -> _ => destruct x as [[| |]|] eqn:E1
  end; [done|..]; intros Ht;
    match goal with
    | |- match ?x with _ => _ end = _ => destruct x as [[| |]|] eqn:E2
    end; try exact Ht; apply H in E2; congruence.
Qed.

(** With the working directory at the root, [open_at] is [open_w]. *)
Lemma open_at_root fs (p : path) : open_at [] fs p = open_w fs p.
Proof. unfold open_at, open_w. by destruct (absolute p). Qed.

Lemma climbs_not_prefix d (a b : path) :
  climbs_not d (a ++ b) = true -> climbs_not d a = true.
Proof.
  revert d. induction a as [|c a IH]; intros d; simpl; [done|].
  destruct (stays c); [apply IH|].
  destruct (String.eqb c ".."); [|apply IH].
  destruct d as [|d]; [done|apply IH].
Qed.

Lemma drop_trailing_empty_prefix (p : path) :
  exists b, p = drop_trailing_empty p ++ b.
Proof.
  induction p as [|c p [b IH]]; simpl; [by exists []|].
  destruct (drop_trailing_empty p) as [|c' q] eqn:E.
  - destruct (String.eqb c ""); [by exists (c :: p)|].
    exists b. simpl. by rewrite IH at 1.
  - exists b. simpl. by rewrite IH at 1.
Qed.

(** Below [cwd] the walk goes as it does in the subtree. *)
Lemma walk_dirs_below cwd whole fs (comps acc : path) :
  subtree_at cwd whole fs ->
  climbs_not (length acc) comps = true ->
  walk_dirs whole (cwd ++ acc) comps
  = match walk_dirs fs acc comps with
    | inl e => inl e
    | inr d => inr (cwd ++ d)
    end.
Proof.
  intros Hsub. revert acc.
  induction comps as [|c rest IH]; intros acc; simpl; [done|].
  destruct (stays c); [apply IH|].
  destruct (String.eqb c "..").
  - destruct acc as [|x acc _] using rev_ind; [done|].
    rewrite length_app, Nat.add_1_r. intros H.
    rewrite app_assoc, !removelast_last. by apply IH.
  - intros H. rewrite <- app_assoc, (Hsub (acc ++ [c])).
    destruct (fs !! ((acc ++ [c]) : path)) as [[| |]|] eqn:E; [|done..].
    rewrite app_assoc, <- app_assoc. apply IH.
    by rewrite length_app, Nat.add_1_r.
Qed.

(** For a path that stays below the working directory, [open] goes the
    same way wherever that directory is in the file system: what
    [open_w] says of the subtree holds of the whole. *)
Lemma open_at_below cwd whole fs (p : path) :
  subtree_at cwd whole fs ->
  below p = true ->
  open_at cwd whole p
  = match open_w fs p with
    | inl e => inl e
    | inr t => inr (cwd ++ t)
    end.
Proof.
  intros Hsub [Habs Hc]%andb_true_iff. apply negb_true_iff in Habs.
  unfold open_at, open_w. rewrite Habs.
  case_bool_decide as Hempty; [done|]. cbv zeta.
  destruct (drop_trailing_empty_prefix p) as [b Hb].
  destruct (drop_trailing_empty p) as [|c0 q0] eqn:Hq; [done|].
  remember (c0 :: q0) as q eqn:Eq.
  assert (Hq' : q = removelast q ++ [List.last q ""%string]).
  { apply app_removelast_last. by rewrite Eq. }
  assert (Hw : climbs_not 0 (removelast q) = true).
  { rewrite Hb, Hq', <- app_assoc in Hc. by apply climbs_not_prefix in Hc. }
  pose proof (walk_dirs_below cwd whole fs (removelast q) [] Hsub Hw) as E.
  rewrite app_nil_r in E. rewrite E.
  destruct (walk_dirs fs [] (removelast q)) as [[|]|dir]; [done|done|].
  match goal with
  | |- (if ?b then _ else _) = _ => destruct b; [done|]
  end.
  rewrite <- app_assoc, (Hsub (dir ++ [List.last q ""%string])).
  match goal with
  | |- _ = match (match ?x with _ => _ end) with _ => _ end =>
      destruct x as [[| |]|]
  end; by rewrite ?app_assoc.
Qed.

(** The three ways [write_json] can go. *)
Lemma write_json_cases (p : path) doc w :
  (exists e, open_w (files w) p = inl e /\ write_json p doc w = (Raised e, w))
  \/ (exists t,
        open_w (files w) p = inr t /\ json_utf8_ok doc = true
        /\ write_json p doc w
           = (Returned tt, World (<[t := File doc]> (files w)) (console w)))
  \/ (exists t,
        open_w (files w) p = inr t /\ json_utf8_ok doc = false
        /\ write_json p doc w
           = (Raised UnicodeEncodeError,
              World (<[t := Partial]> (files w)) (console w))).
Proof.
  unfold write_json. destruct (open_w (files w) p) as [e|t].
  - left. by exists e.
  - right. destruct (json_utf8_ok doc); [left|right]; by exists t.
Qed.

Lemma makedirs_data w :
  makedirs ["data"%string] w =
  match files w !! (["data"%string] : path) with
  | None =>
      (Returned tt, World (<[["data"%string] := Dir]> (files w)) (console w))
  | Some Dir => (Returned tt, w)
  | Some _ => (Raised (FileExistsError ["data"%string]), w)
  end.
Proof.
  unfold makedirs. simpl.
  change (@lookup (list string) entry (gmap path entry))
    with (@lookup path entry (gmap path entry)).
  destruct (files w !! (["data"%string] : path)) as [[| |]|] eqn:E;
    simpl; by rewrite ?world_eta.
Qed.

Lemma append_body_utf8_ok range values :
  json_utf8_ok (append_body range values)
  = utf8_ok range && json_utf8_ok (grid_json values).
Proof.
  unfold append_body. cbn [json_utf8_ok forallb snd].
  change (utf8_ok (lit "ROWS")) with true. by rewrite andb_true_r.
Qed.

(** When a run succeeds and what it leaves. *)
Lemma main_succeeds_when is_digit a resp w values w1 (tv tb : path) :
  scrape_first10 is_digit resp w = (Returned values, w1) ->
  data_free (files w) ->
  open_w (<[["data"%string] := Dir]> (files w)) (arg_values_out a) = inr tv ->
  open_w (<[["data"%string] := Dir]> (files w)) (arg_body_out a) = inr tb ->
  json_utf8_ok (grid_json values) = true ->
  utf8_ok (arg_range a) = true ->
  main is_digit a resp w
  = (Returned tt,
     World
       (<[tb := File (append_body (arg_range a) values)]>
          (<[tv := File (grid_json values)]>
             (<[["data"%string] := Dir]> (files w))))
       (console w1 ++ [Instructions (arg_values_out a) (arg_body_out a)])).
Proof.
  intros Hs Hdata Hv Hb Hg Hr.
  pose proof (Hf := scrape_first10_files_eq _ _ _ _ _ Hs).
  unfold main, mbind, io_bind. rewrite Hs, makedirs_data, Hf.
  set (fs1 := <[["data"%string] := Dir]> (files w)) in *.
  assert (E : exists w2, files w2 = fs1 /\ console w2 = console w1 /\
    match files w !! (["data"%string] : path) with
    | Some Dir => (Returned (), w1)
    | Some _ => (Raised (FileExistsError ["data"%string]), w1)
    | None => (Returned (), World fs1 (console w1))
    end = (Returned tt, w2)).
  { destruct Hdata as [E|E]; rewrite E.
    - exists (World fs1 (console w1)). repeat split.
    - exists w1. split; [|split; reflexivity].
      rewrite Hf. unfold fs1. symmetry. by apply insert_id. }
  destruct E as (w2 & Hf2 & Hc2 & ->).
  unfold write_json at 1. rewrite Hf2, Hv, Hg.
  unfold write_json. cbn [files console].
  assert (Hb2 : open_w (<[tv := File (grid_json values)]> fs1) (arg_body_out a)
                = inr tb).
  { eapply open_w_same_dirs; [|exact Hb].
    apply same_dirs_insert; [done|]. by apply open_w_canonical in Hv as [_ ?]. }
  rewrite Hb2, append_body_utf8_ok, Hr, Hg. simpl.
  unfold print. simpl. by rewrite Hc2.
Qed.

Lemma main_returns_only_when is_digit a resp w :
  fst (main is_digit a resp w) = Returned tt ->
  exists values w1 (tv tb : path),
    scrape_first10 is_digit resp w = (Returned values, w1)
    /\ data_free (files w)
    /\ open_w (<[["data"%string] := Dir]> (files w)) (arg_values_out a)
       = inr tv
    /\ open_w (<[["data"%string] := Dir]> (files w)) (arg_body_out a)
       = inr tb
    /\ json_utf8_ok (grid_json values) = true
    /\ utf8_ok (arg_range a) = true.
Proof.
  unfold main, mbind, io_bind.
  destruct (scrape_first10 is_digit resp w) as [[values|e] w1] eqn:Hs; [|done].
  pose proof (Hf := scrape_first10_files_eq _ _ _ _ _ Hs).
  rewrite makedirs_data, Hf.
  set (fs1 := <[["data"%string] := Dir]> (files w)).
  intros H. exists values, w1.
  assert (E : data_free (files w) /\ exists w2, files w2 = fs1 /\
    fst (let (o, w') := write_json (arg_values_out a) (grid_json values) w2 in
         match o with
         | Returned _ =>
             let (o0, w'0) :=
               write_json (arg_body_out a)
                 (append_body (arg_range a) values) w' in
             match o0 with
             | Returned _ =>
                 print (Instructions (arg_values_out a) (arg_body_out a)) w'0
             | Raised e => (Raised e, w'0)
             end
         | Raised e => (Raised e, w')
         end) = Returned tt).
  { unfold data_free.
    destruct (files w !! (["data"%string] : path)) as [[| |]|] eqn:E.
    - split; [by right|]. exists w1. split; [|done].
      rewrite Hf. unfold fs1. symmetry. by apply insert_id.
    - done.
    - done.
    - split; [by left|]. by exists (World fs1 (console w1)). }
  destruct E as (Hdata & w2 & Hf2 & H2).
  destruct (write_json_cases (arg_values_out a) (grid_json values) w2)
    as [(e & _ & Hw)|[(tv & Hv & Hg & Hw)|(tv & _ & _ & Hw)]];
    rewrite Hw in H2; [done| |done].
  set (w3 := World (<[tv := File (grid_json values)]> (files w2)) (console w2))
    in *.
  destruct (write_json_cases (arg_body_out a)
              (append_body (arg_range a) values) w3)
    as [(e & _ & Hw')|[(tb & Hb & Hbo & Hw')|(tb & _ & _ & Hw')]];
    rewrite Hw' in H2; [done| |done].
  rewrite Hf2 in Hv. simpl in Hb. rewrite Hf2 in Hb.
  rewrite append_body_utf8_ok in Hbo. apply andb_true_iff in Hbo as [Hr _].
  exists tv, tb. repeat split; try done.
  eapply open_w_same_dirs; [|exact Hb].
  apply same_dirs_sym, same_dirs_insert; [done|].
  by apply open_w_canonical in Hv as [_ ?].
Qed.

Lemma as_grid_grid_json values : as_grid (grid_json values) = Some values.
Proof.
  unfold grid_json, as_grid. apply mapM_Some. apply Forall2_fmap_l.
  apply Forall_Forall2_diag, Forall_forall. intros r _.
  unfold as_row. apply mapM_Some. apply Forall2_fmap_l.
  by apply Forall_Forall2_diag, Forall_forall.
Qed.

(** C8: when the run succeeds, with output paths that stay below the
    working directory, the page was fetched and the grid is the header
    followed by the fields of the selected rows; the body file holds an
    object with exactly the fields [range] (the range given),
    [majorDimension] (the string ROWS) and [values], in this order, the
    last being the array of the arrays of the strings of that grid, which
    reads back as the grid; and the values file, when it is another file,
    holds that same array. *)
Theorem body_wraps_the_grid is_digit a resp w :
  below (arg_values_out a) = true ->
  below (arg_body_out a) = true ->
  fst (main is_digit a resp w) = Returned tt ->
  exists doc values vjson body,
    resp = Page doc
    /\ values
       = HEADER
         :: map (fun tr =>
                   [year_of tr; winner_of tr; score_of tr; runnersup_of tr])
                (ROWS_1_TO_10 doc)
    /\ vjson = JArray (map (fun r => JArray (map JString r)) values)
    /\ as_grid vjson = Some values
    /\ body = JObject [("range"%string, JString (arg_range a));
                       ("majorDimension"%string, JString (lit "ROWS"));
                       ("values"%string, vjson)]
    /\ files (snd (main is_digit a resp w)) !! canonical (arg_body_out a)
       = Some (File body)
    /\ field "values" body = Some vjson
    /\ (canonical (arg_values_out a) ≠ canonical (arg_body_out a) ->
        files (snd (main is_digit a resp w)) !! canonical (arg_values_out a)
        = Some (File vjson)).
Proof.
  intros _ _ H.
  destruct (main_returns_only_when _ _ _ _ H)
    as (values & w1 & tv & tb & Hs & Hdata & Hv & Hb & Hg & Hr).
  rewrite (main_succeeds_when _ _ _ _ _ _ _ _ Hs Hdata Hv Hb Hg Hr).
  apply open_w_canonical in Hv as [-> _].
  apply open_w_canonical in Hb as [-> _].
  destruct resp as [| |doc]; [done|done|].
  rewrite scrape_first10_run in Hs.
  destruct (ROWS_1_TO_10 doc) as [|tr rows] eqn:E; [done|].
  injection Hs as <- _.
  exists doc, (HEADER :: map row_fields (tr :: rows)),
    (grid_json (HEADER :: map row_fields (tr :: rows))),
    (append_body (arg_range a) (HEADER :: map row_fields (tr :: rows))).
  split; [done|]. split; [by rewrite E|]. split; [done|].
  split; [apply as_grid_grid_json|]. split; [done|].
  cbn [snd files]. split; [apply lookup_insert_eq|]. split; [done|].
  intros Hne. rewrite lookup_insert_ne by done. apply lookup_insert_eq.
Qed.

Lemma body_wraps_the_grid_witness :
  let a := default_args None in
  let resp := Page (page_of twelve_rows) in
  exists doc values vjson body,
    resp = Page doc
    /\ values
       = HEADER
         :: map (fun tr =>
                   [year_of tr; winner_of tr; score_of tr; runnersup_of tr])
                (ROWS_1_TO_10 doc)
    /\ vjson = JArray (map (fun r => JArray (map JString r)) values)
    /\ as_grid vjson = Some values
    /\ body = JObject [("range"%string, JString (arg_range a));
                       ("majorDimension"%string, JString (lit "ROWS"));
                       ("values"%string, vjson)]
    /\ files (snd (main ascii_digit a resp empty_world))
         !! canonical (arg_body_out a)
       = Some (File body)
    /\ field "values" body = Some vjson
    /\ (canonical (arg_values_out a) ≠ canonical (arg_body_out a) ->
        files (snd (main ascii_digit a resp empty_world))
          !! canonical (arg_values_out a)
        = Some (File vjson)).
Proof.
  apply (body_wraps_the_grid ascii_digit (default_args None)
           (Page (page_of twelve_rows)) empty_world).
  - reflexivity.
  - reflexivity.
  - vm_compute. reflexivity.
Defined.

(** With the default paths the run creates [data] and both files in an
    empty working directory. *)
Example default_run_creates_data :
  let w' := snd (main ascii_digit (default_args None)
                   (Page (page_of twelve_rows)) empty_world) in
  files w' !! ["data"%string] = Some Dir
  /\ is_Some (files w' !! ["data"; "values.json"]%string)
  /\ is_Some (files w' !! ["data"; "append_body.json"]%string).
Proof. vm_compute. repeat split; eauto. Qed.

(** C3 fails on the code: with both output paths under [out], a directory
    that is not there, the run creates [data], not [out], and the first
    [open] raises [FileNotFoundError]; neither file is written. *)
Theorem output_directory_is_not_created :
  let r := main ascii_digit args_into_out (Page (page_of twelve_rows))
             empty_world in
  fst r = Raised (FileNotFoundError ["out"; "values.json"]%string)
  /\ files (snd r) !! ["out"%string] = None
  /\ files (snd r) !! ["data"%string] = Some Dir
  /\ files (snd r) !! ["out"; "values.json"]%string = None
  /\ files (snd r) !! ["out"; "append_body.json"]%string = None.
Proof. vm_compute. repeat split; reflexivity. Qed.

(** * Further properties of the program *)

(** ** More on [clean_text] *)

Lemma no_citation_cite_free u : ~ has_citation u -> cite_free u.
Proof.
  induction u as [|c r IH]; intros H; simpl; [done|]. split.
  - intros ->. destruct r as [|d r']; [right; apply not_elem_of_nil|].
    destruct (N.eqb_spec d RBRACKET) as [->|Hd]; [by left|]. right.
    apply after_rbracket_None.
    destruct (after_rbracket (d :: r')) as [post|] eqn:E; [|done].
    apply after_rbracket_Some in E as (mid & E & Hmid).
    exfalso. apply H. exists [], mid, post. simpl. rewrite E.
    split; [done|]. split; [|done].
    intros ->. simpl in E. congruence.
  - apply IH. intros (pre & mid & post & -> & Hne & Hmid).
    apply H. by exists (c :: pre), mid, post.
Qed.

Lemma no_space_run_tidy u :
  (forall c, c ∈ u -> is_space c = true -> c = SPACE) ->
  ~ has_space_run u -> tidy u.
Proof.
  induction u as [|c r IH]; intros Hsp Hrun; simpl; [done|]. split.
  - intros Hc. split; [apply Hsp; [left|done]|].
    destruct r as [|d r']; [done|]. simpl.
    destruct (is_space d) eqn:Hd; [|done].
    exfalso. apply Hrun. by exists [], c, d, r'.
  - apply IH.
    + intros x Hx. apply Hsp. by right.
    + intros (pre & a & b & post & -> & Ha & Hb).
      apply Hrun. by exists (c :: pre), a, b, post.
Qed.

Lemma tidy_spaces u c : tidy u -> c ∈ u -> is_space c = true -> c = SPACE.
Proof.
  induction u as [|d r IH]; simpl.
  - intros _ H. by apply elem_of_nil in H.
  - intros [Hd Hr] [->|H]%elem_of_cons Hc; [by destruct (Hd Hc)|auto].
Qed.

Lemma normal_is_fixed t :
  cite_free t -> tidy t -> NBSP ∉ t ->
  starts_blank t = false -> ends_blank t = false ->
  clean_text (Some t) = t.
Proof.
  intros F T N B1 B2. unfold clean_text.
  rewrite cite_free_fixed, replace_nbsp_fixed, tidy_fixed by done.
  by apply strip_id.
Qed.

(** X1: the texts that [clean_text] returns unchanged are exactly the
    normalised ones: no bracketed annotation, every whitespace character a
    plain space, no two of them in a row, none at either end. *)
Theorem clean_text_fixed_points (t : pystr) :
  clean_text (Some t) = t <->
  (~ has_citation t
   /\ (forall c, c ∈ t -> is_space c = true -> c = SPACE)
   /\ ~ has_space_run t
   /\ starts_blank t = false
   /\ ends_blank t = false).
Proof.
  split.
  - intros E. destruct (clean_text_normal (Some t)) as (F & T & N & B1 & B2).
    rewrite E in F, T, N, B1, B2.
    split; [by apply cite_free_no_citation|].
    split; [intros c; by apply tidy_spaces|].
    split; [by apply tidy_no_space_run|done].
  - intros (Hc & Hs & Hr & B1 & B2).
    apply normal_is_fixed; [|by apply no_space_run_tidy| |done|done].
    + by apply no_citation_cite_free.
    + intros H. by specialize (Hs NBSP H eq_refl).
Qed.

Lemma citation_skip a s :
  LBRACKET ∉ a -> re_sub CITATION [] (a ++ s) = a ++ re_sub CITATION [] s.
Proof.
  induction a as [|c a IH]; simpl; [done|].
  rewrite not_elem_of_cons. intros [Hc Ha].
  rewrite re_sub_cons, run_CITATION, citation_re_cons.
  destruct (N.eqb_spec c LBRACKET); [congruence|]. by rewrite IH.
Qed.

(** X2: an annotation that follows text without an opening bracket is
    dropped whole: the result is that of the text without it. *)
Theorem clean_text_drops_citation (a mid b : pystr) :
  LBRACKET ∉ a -> mid ≠ [] -> RBRACKET ∉ mid ->
  clean_text (Some (a ++ LBRACKET :: mid ++ RBRACKET :: b))
  = clean_text (Some (a ++ b)).
Proof.
  intros Ha Hne Hmid. unfold clean_text.
  rewrite !citation_skip by done.
  rewrite re_sub_cons, run_CITATION.
  assert (E : citation_re (LBRACKET :: mid ++ RBRACKET :: b) = Some b).
  { apply citation_re_Some. by exists mid. }
  by rewrite E.
Qed.

Lemma clean_text_drops_citation_witness :
  clean_text (Some (lit "Brazil" ++ LBRACKET :: lit "n 1" ++ RBRACKET :: lit " 1958"))
  = clean_text (Some (lit "Brazil" ++ lit " 1958")).
Proof.
  apply (clean_text_drops_citation (lit "Brazil") (lit "n 1") (lit " 1958")).
  - vm_compute. intros H. repeat (apply elem_of_cons in H as [H|H]; [discriminate H|]).
    by apply elem_of_nil in H.
  - discriminate.
  - vm_compute. intros H. repeat (apply elem_of_cons in H as [H|H]; [discriminate H|]).
    by apply elem_of_nil in H.
Defined.

Lemma re_sub_length re repl s :
  (length repl <= 1)%nat -> (length (re_sub re repl s) <= length s)%nat.
Proof.
  intros Hrepl. apply re_sub_cases.
  - done.
  - intros c r rest out Hrun Hout. apply run_consumes in Hrun.
    rewrite length_app. simpl in *. lia.
  - intros c r out _ Hout. simpl. lia.
Qed.

Lemma lstrip_length s : (length (lstrip s) <= length s)%nat.
Proof.
  destruct (lstrip_split s) as (w & H & _).
  rewrite H at 2. rewrite length_app. lia.
Qed.

Lemma strip_length s : (length (strip s) <= length s)%nat.
Proof.
  destruct (strip_split s) as (w1 & w2 & H).
  rewrite H at 2. rewrite !length_app. lia.
Qed.

Lemma strip_elem s x : x ∈ strip s -> x ∈ s.
Proof.
  destruct (strip_split s) as (w1 & w2 & H). intros Hx.
  rewrite H. apply elem_of_app. right. apply elem_of_app. by left.
Qed.

Lemma replace_nbsp_elem u x : x ∈ replace_nbsp u -> x = SPACE \/ x ∈ u.
Proof.
  unfold replace_nbsp. induction u as [|c r IH]; simpl.
  - intros H. by apply elem_of_nil in H.
  - intros [->|H]%elem_of_cons.
    + destruct (N.eqb_spec c NBSP); [by left|right; left].
    + destruct (IH H); [by left|right; by right].
Qed.

(** X3: [clean_text] only removes and blanks: its output is never longer
    than its input, and every character of the output is a character of
    the input or a plain space. *)
Theorem clean_text_never_grows (s : pystr) :
  (length (clean_text (Some s)) <= length s)%nat
  /\ forall x, x ∈ clean_text (Some s) -> x = SPACE \/ x ∈ s.
Proof.
  unfold clean_text. split.
  - etrans; [apply strip_length|].
    etrans; [apply re_sub_length; simpl; lia|].
    unfold replace_nbsp. rewrite length_map.
    apply re_sub_length. simpl. lia.
  - intros x Hx. apply strip_elem in Hx.
    destruct (N.eq_dec x SPACE) as [->|Hne]; [by left|].
    destruct (sub_spaces_spec (replace_nbsp (re_sub CITATION [] s)))
      as (_ & _ & Hin & _).
    apply Hin in Hx; [|done].
    apply replace_nbsp_elem in Hx as [->|Hx]; [done|].
    right. by apply sub_citation_spec.
Qed.

Lemma lstrip_blank s : all_of is_space s -> lstrip s = [].
Proof.
  induction 1 as [|c r Hc _ IH]; simpl; [done|]. by rewrite Hc.
Qed.

(** X4: text made of whitespace only, of any kind and length, is cleaned
    to the empty string. *)
Theorem clean_text_of_blank_is_empty (s : pystr) :
  all_of is_space s -> clean_text (Some s) = [].
Proof.
  intros Hs. unfold clean_text.
  assert (Hl : LBRACKET ∉ s).
  { intros H. unfold all_of in Hs. rewrite Forall_forall in Hs.
    apply Hs in H. by rewrite is_space_lbracket in H. }
  rewrite <- (app_nil_r s) at 1.
  rewrite citation_skip, re_sub_nil, app_nil_r by done.
  assert (Hr : all_of is_space (replace_nbsp s)).
  { unfold all_of, replace_nbsp in *. apply List.Forall_map.
    eapply Forall_impl; [exact Hs|]. intros c Hc. simpl.
    by destruct (c =? NBSP). }
  destruct (replace_nbsp s) as [|c r] eqn:E; [by rewrite re_sub_nil|].
  apply Forall_cons in Hr as [Hc Hr].
  rewrite re_sub_cons, run_SPACES, spaces_re_cons, Hc.
  by rewrite lstrip_blank, re_sub_nil.
Qed.

Lemma clean_text_of_blank_is_empty_witness :
  clean_text (Some [SPACE; NBSP; 9; 10; 8195]) = [].
Proof.
  apply (clean_text_of_blank_is_empty [SPACE; NBSP; 9; 10; 8195]).
  repeat constructor.
Defined.

(** X5: [join_and_clean] is [clean_text] of the joined text, the empty
    list included, so a field depends only on the text of its cell, not on
    how that text is split into text nodes. *)
Theorem join_and_clean_joins (nodes nodes' : list pystr) :
  join_and_clean nodes = clean_text (Some (concat nodes))
  /\ (concat nodes = concat nodes' ->
      join_and_clean nodes = join_and_clean nodes').
Proof.
  assert (H : forall l, join_and_clean l = clean_text (Some (concat l))).
  { intros [|x l]; [|done]. simpl. by rewrite !re_sub_nil. }
  split; [apply H|]. intros E. by rewrite !H, E.
Qed.

(** ** More on the row extractor *)

Lemma table_rows_are_tr here n :
  Forall (fun r => is_elem "tr" r = true) (table_rows here n).
Proof.
  revert here. induction n as [s|tag attrs kids IH] using node_ind;
    intros here; [constructor|].
  rewrite table_rows_Elem. apply Forall_app. split.
  - destruct (selected_here here (Elem tag attrs kids)) eqn:E; [|constructor].
    constructor; [|constructor]. by destruct here.
  - apply Forall_forall. intros r Hr.
    apply list_elem_of_In, in_flat_map in Hr as (k & Hk & Hr).
    rewrite Forall_forall in IH.
    specialize (IH k (proj2 (list_elem_of_In _ _) Hk)
                  (place_below here (Elem tag attrs kids))).
    rewrite Forall_forall in IH. by apply IH, list_elem_of_In.
Qed.

(** X6: the position test of [ROWS_1_TO_10_XPATH] is a slice: the rows
    kept are the ten that follow the first row of the node-set, fewer when
    there are not that many; all of them are [tr] elements. *)
Theorem rows_are_a_slice (doc : node) :
  ROWS_1_TO_10 doc = take 10 (drop 1 (table_rows Elsewhere doc))
  /\ (length (ROWS_1_TO_10 doc) <= 10)%nat
  /\ Forall (fun r => is_elem "tr" r = true) (ROWS_1_TO_10 doc).
Proof.
  rewrite ROWS_1_TO_10_slice. split; [done|]. split.
  - rewrite length_take. lia.
  - apply Forall_take, Forall_drop, table_rows_are_tr.
Qed.

Lemma join_and_clean_fixed l :
  clean_text (Some (join_and_clean l)) = join_and_clean l.
Proof.
  destruct l as [|x l]; simpl join_and_clean.
  - simpl. by rewrite !re_sub_nil.
  - destruct (clean_text_normal (Some (concat (x :: l))))
      as (F & T & N & B1 & B2).
    by apply normal_is_fixed.
Qed.

(** X7: the grid that [scrape_first10] returns starts with the header,
    has between one and ten data rows, four fields in every row, and
    every field of a data row is normalised text, which [clean_text] would
    leave as it is. *)
Theorem returned_grid_shape is_digit resp w values w' :
  scrape_first10 is_digit resp w = (Returned values, w') ->
  exists data,
    values = HEADER :: data
    /\ (1 <= length data <= 10)%nat
    /\ Forall (fun r => length r = 4%nat) values
    /\ Forall (Forall (fun f => clean_text (Some f) = f)) data.
Proof.
  destruct resp as [| |doc]; [done|done|].
  rewrite scrape_first10_run.
  pose proof (rows_slice_bound := ROWS_1_TO_10_slice doc).
  destruct (ROWS_1_TO_10 doc) as [|tr rows] eqn:E; [done|].
  assert (Hlen : (length (tr :: rows) <= 10)%nat).
  { rewrite rows_slice_bound, length_take. lia. }
  assert (H4 : forall l,
    Forall (fun r => length r = 4%nat) (map row_fields l)).
  { induction l; simpl; constructor; done. }
  assert (Hn : forall l,
    Forall (Forall (fun f => clean_text (Some f) = f)) (map row_fields l)).
  { induction l as [|r l IH]; simpl; constructor; [|done].
    unfold row_fields, year_of, winner_of, score_of, runnersup_of.
    repeat constructor; apply join_and_clean_fixed. }
  intros [= <- _]. exists (map row_fields (tr :: rows)).
  split; [done|]. split; [|split].
  - rewrite length_map. simpl in *. lia.
  - constructor; [done|]. apply (H4 (tr :: rows)).
  - apply (Hn (tr :: rows)).
Qed.

Lemma returned_grid_shape_witness :
  exists data,
    [HEADER;
     [lit "190"; lit "Uruguay"; score_4_2; lit "Argentina"];
     [lit "2030"; lit "TBD"; lit "TBD"; lit "TBD"]]
    = HEADER :: data
    /\ (1 <= length data <= 10)%nat
    /\ Forall (fun r => length r = 4%nat)
         [HEADER;
          [lit "190"; lit "Uruguay"; score_4_2; lit "Argentina"];
          [lit "2030"; lit "TBD"; lit "TBD"; lit "TBD"]]
    /\ Forall (Forall (fun f => clean_text (Some f) = f)) data.
Proof.
  apply (returned_grid_shape ascii_digit (Page page_with_tbd) empty_world _
           (World ∅ [Warn (lit "2030") (lit "TBD")])).
  vm_compute. reflexivity.
Defined.

Lemma row_warning_length is_digit rows :
  (length (flat_map (row_warning is_digit) rows) <= length rows)%nat.
Proof.
  induction rows as [|tr rows IH]; simpl; [done|].
  rewrite length_app. unfold row_warning at 1.
  destruct (re_search (score_re is_digit) (score_of tr)); simpl; lia.
Qed.

Lemma row_warning_events is_digit rows :
  Forall (fun ev => exists y s, ev = Warn y s)
         (flat_map (row_warning is_digit) rows).
Proof.
  induction rows as [|tr rows IH]; simpl; [constructor|].
  apply Forall_app. split; [|done]. unfold row_warning.
  destruct (re_search (score_re is_digit) (score_of tr)); repeat constructor.
  eauto.
Qed.

(** X8: whatever it is given and whether it returns or raises,
    [scrape_first10] leaves the files alone and only adds to the console,
    warnings and nothing else, at most ten of them. *)
Theorem scraper_only_warns is_digit resp w :
  files (snd (scrape_first10 is_digit resp w)) = files w
  /\ exists warns,
       console (snd (scrape_first10 is_digit resp w)) = console w ++ warns
       /\ Forall (fun ev => exists y s, ev = Warn y s) warns
       /\ (length warns <= 10)%nat.
Proof.
  split; [apply scrape_first10_files|].
  destruct resp as [| |doc].
  - exists []. simpl. rewrite app_nil_r. repeat split; [constructor|lia].
  - exists []. simpl. rewrite app_nil_r. repeat split; [constructor|lia].
  - rewrite scrape_first10_run.
    pose proof (Hs := ROWS_1_TO_10_slice doc).
    destruct (ROWS_1_TO_10 doc) as [|tr rows] eqn:E.
    + exists []. simpl. rewrite app_nil_r. repeat split; [constructor|lia].
    + assert (Hlen : (length (tr :: rows) <= 10)%nat).
      { rewrite Hs, length_take. lia. }
      exists (flat_map (row_warning is_digit) (tr :: rows)).
      split; [done|]. split; [apply row_warning_events|].
      etrans; [apply row_warning_length|]. done.
Qed.

(** X9: when the scraper raises, for whatever reason (the page cannot be
    reached, the status is an error, the query yields at most one row),
    [main] raises the same error and nothing has been printed, created or
    written. *)
Theorem scraper_failure_stops_the_run is_digit a resp w e :
  fst (scrape_first10 is_digit resp w) = Raised e ->
  main is_digit a resp w = (Raised e, w).
Proof.
  intros H. apply main_raises_with_scraper.
  destruct resp as [| |doc].
  - simpl in H. by injection H as <-.
  - simpl in H. by injection H as <-.
  - rewrite scrape_first10_run in *.
    destruct (ROWS_1_TO_10 doc) as [|tr rows]; [|done].
    simpl in H. by injection H as <-.
Qed.

Lemma scraper_failure_stops_the_run_witness :
  main ascii_digit (default_args None) BadStatus empty_world
  = (Raised HTTPError, empty_world).
Proof.
  apply (scraper_failure_stops_the_run ascii_digit (default_args None)
           BadStatus empty_world HTTPError).
  reflexivity.
Defined.

(** A table that [TABLE_XPATH] selects, with one [tbody] and no table
    inside it, and its body rows. *)
Definition lone_table (t : node) (rows : list node) : Prop :=
  exists tattrs tpre battrs bkids tpost,
    t = Elem "table" tattrs (tpre ++ Elem "tbody" battrs bkids :: tpost)
    /\ is_target_table t = true
    /\ forallb (fun n => no_table n && negb (is_elem "tbody" n))
         (tpre ++ tpost) = true
    /\ forallb no_table bkids = true
    /\ rows = List.filter (is_elem "tr") bkids.

Lemma lone_table_rows t rows :
  lone_table t rows -> table_rows Elsewhere t = rows.
Proof.
  intros (tattrs & tpre & battrs & bkids & tpost & -> & Ht & Hs & Hk & ->).
  by apply table_rows_of_table.
Qed.

(** X10: the positions are counted over the rows of all selected tables
    together, in document order: with two such tables side by side the
    slice runs on from the first table into the second, whose header row
    is then taken as a data row. *)
Theorem rows_run_across_tables ctx tag attrs l0 t1 l1 t2 l2 rows1 rows2 :
  forallb plain_frame ctx = true ->
  String.eqb tag "table" = false ->
  forallb no_table l0 = true ->
  forallb no_table l1 = true ->
  forallb no_table l2 = true ->
  lone_table t1 rows1 ->
  lone_table t2 rows2 ->
  ROWS_1_TO_10 (plug ctx (Elem tag attrs (l0 ++ t1 :: l1 ++ t2 :: l2)))
  = take 10 (drop 1 (rows1 ++ rows2)).
Proof.
  intros Hctx Htag H0 H1 H2 Ht1 Ht2.
  rewrite ROWS_1_TO_10_slice, table_rows_plug by done.
  rewrite table_rows_Elem, place_below_other by done.
  cbn [selected_here app].
  rewrite flat_map_app. cbn [flat_map].
  rewrite flat_map_app. cbn [flat_map].
  rewrite !flat_map_rows_elsewhere by done.
  rewrite (lone_table_rows _ _ Ht1), (lone_table_rows _ _ Ht2).
  by rewrite app_nil_r.
Qed.

Definition two_tables_page : node :=
  Elem "html" []
    [Elem "body" []
       [finals_table [header_row; data_row 0; data_row 1];
        Elem "p" [] [Text (lit "Third place")];
        finals_table [header_row; data_row 2; tbd_row]]].

Lemma finals_table_lone rows :
  forallb no_table rows = true ->
  lone_table (finals_table rows) (List.filter (is_elem "tr") rows).
Proof.
  intros H. exists [("class"%string, lit "sortable wikitable")],
    [Elem "caption" [] [Text (lit "List of FIFA World Cup finals")]],
    [], rows, [].
  repeat split; done.
Qed.

Lemma rows_run_across_tables_witness :
  ROWS_1_TO_10 two_tables_page
  = [data_row 0; data_row 1; header_row; data_row 2; tbd_row].
Proof.
  apply (rows_run_across_tables [Frame "html" [] [] []] "body" [] []
           (finals_table [header_row; data_row 0; data_row 1])
           [Elem "p" [] [Text (lit "Third place")]]
           (finals_table [header_row; data_row 2; tbd_row]) []
           [header_row; data_row 0; data_row 1]
           [header_row; data_row 2; tbd_row]).
  - reflexivity.
  - reflexivity.
  - reflexivity.
  - reflexivity.
  - reflexivity.
  - apply (finals_table_lone [header_row; data_row 0; data_row 1]).
    reflexivity.
  - apply (finals_table_lone [header_row; data_row 2; tbd_row]).
    reflexivity.
Defined.

(** X11: a selected row with fewer than two [td] cells does not stop the
    scraper: it returns, the row is in the grid at its place with an empty
    score and an empty runner-up, and the warning for it, naming its year
    and the empty score, is on the console. *)
Theorem short_row_warns is_digit doc w (i : nat) tr :
  ROWS_1_TO_10 doc !! i = Some tr ->
  (length (List.filter (is_elem "td") (children tr)) < 2)%nat ->
  exists values w',
    scrape_first10 is_digit (Page doc) w = (Returned values, w')
    /\ values !! S i = Some [year_of tr; winner_of tr; []; []]
    /\ Warn (year_of tr) [] ∈ console w'.
Proof.
  intros Hi H.
  assert (Hs : SCORE_REL tr = None).
  { apply nth_error_None. simpl. lia. }
  assert (Hr : RUNNERSUP_REL tr = None).
  { apply nth_error_None. simpl. lia. }
  assert (E1 : score_of tr = []) by (unfold score_of; by rewrite Hs).
  assert (E2 : runnersup_of tr = []) by (unfold runnersup_of; by rewrite Hr).
  assert (Hw : row_warning is_digit tr = [Warn (year_of tr) []]).
  { unfold row_warning. by rewrite E1. }
  rewrite scrape_first10_run.
  destruct (ROWS_1_TO_10 doc) as [|r0 rows] eqn:E; [done|].
  eexists _, _. split; [reflexivity|]. split.
  - change ((map row_fields (r0 :: rows)) !! i
            = Some [year_of tr; winner_of tr; []; []]).
    change (map row_fields (r0 :: rows)) with (row_fields <$> (r0 :: rows)).
    rewrite list_lookup_fmap, Hi. simpl.
    unfold row_fields. by rewrite E1, E2.
  - cbn [console]. apply elem_of_app. right.
    apply list_elem_of_In, in_flat_map. exists tr. split.
    + by apply list_elem_of_In, list_elem_of_lookup_2 with i.
    + rewrite Hw. by left.
Qed.

Lemma short_row_warns_witness :
  exists values w',
    scrape_first10 ascii_digit (Page page_with_short_row) empty_world
    = (Returned values, w')
    /\ values !! 2%nat
       = Some [year_of row_of_two_cells; winner_of row_of_two_cells; []; []]
    /\ Warn (year_of row_of_two_cells) [] ∈ console w'.
Proof.
  apply (short_row_warns ascii_digit page_with_short_row empty_world 1
           row_of_two_cells).
  - reflexivity.
  - vm_compute. lia.
Defined.

(** X12: the score check looks for the shape anywhere in the text: what
    stands before or after a score that passes does not make it fail. *)
Theorem score_check_ignores_context is_digit pre s post :
  re_search (score_re is_digit) s = true ->
  re_search (score_re is_digit) (pre ++ s ++ post) = true.
Proof.
  rewrite !score_search_shape.
  intros (p0 & d1 & w1 & dash & w2 & d2 & q0 & -> & H).
  exists (pre ++ p0), d1, w1, dash, w2, d2, (q0 ++ post).
  split; [|done].
  rewrite <- !app_assoc. simpl. by rewrite <- !app_assoc.
Qed.

Lemma score_check_ignores_context_witness :
  re_search (score_re ascii_digit)
    (lit "Final: " ++ score_4_2 ++ lit " (a.e.t.)") = true.
Proof.
  apply (score_check_ignores_context ascii_digit (lit "Final: ") score_4_2
           (lit " (a.e.t.)")).
  reflexivity.
Defined.

(** ** More on the output builder *)

(** How [open] answers some paths when [data] is the only directory:
    [..], [.], the empty string and a path that ends in a slash name no
    file, [data/../notes.txt] is [notes.txt], and a directory that is not
    there is not made. *)
Example open_w_by_path :
  let fs : gmap path entry := {[ ["data"%string] := Dir ]} in
  open_w fs [".."%string] = inl (IsADirectoryError [".."%string])
  /\ open_w fs ["."%string] = inl (IsADirectoryError ["."%string])
  /\ open_w fs [""%string] = inl (FileNotFoundError [""%string])
  /\ open_w fs ["notes.txt"; ""]%string
     = inl (IsADirectoryError ["notes.txt"; ""]%string)
  /\ open_w fs ["data"; ".."; "notes.txt"]%string
     = inr ["notes.txt"%string]
  /\ open_w fs ["data"; ""; "."; "values.json"]%string
     = inr ["data"; "values.json"]%string
  /\ open_w fs ["out"; ".."; "notes.txt"]%string
     = inl (FileNotFoundError ["out"; ".."; "notes.txt"]%string)
  /\ open_w fs ["data"%string] = inl (IsADirectoryError ["data"%string]).
Proof. vm_compute. repeat split; reflexivity. Qed.

(** A lone surrogate in the range stops the run at the second
    [json.dump]: the values file is complete, the body file is left
    unfinished and the instructions are not printed. *)
Example surrogate_in_range_stops_the_run :
  let r := main ascii_digit args_with_surrogate (Page page_with_tbd)
             empty_world in
  fst r = Raised UnicodeEncodeError
  /\ files (snd r) !! (["data"; "values.json"]%string : path)
     = Some (File (grid_json tbd_grid))
  /\ files (snd r) !! (["data"; "append_body.json"]%string : path)
     = Some Partial
  /\ console (snd r) = [Warn (lit "2030") (lit "TBD")].
Proof. vm_compute. repeat split; reflexivity. Qed.



(** X14: when [data] is there as a regular file the run stops at
    [os.makedirs] with [FileExistsError], after the scraper has done its
    work, and no file has been touched. *)
Theorem data_file_blocks_the_run is_digit a resp w values old :
  fst (scrape_first10 is_digit resp w) = Returned values ->
  files w !! (["data"%string] : path) = Some (File old) ->
  fst (main is_digit a resp w) = Raised (FileExistsError ["data"%string])
  /\ files (snd (main is_digit a resp w)) = files w.
Proof.
  intros Hv Hold. unfold main, mbind, io_bind.
  destruct (scrape_first10 is_digit resp w) as [r w1] eqn:Hs.
  simpl in Hv. subst r.
  pose proof (Hf := scrape_first10_files_eq _ _ _ _ _ Hs).
  rewrite makedirs_data, Hf, Hold. by split.
Qed.

Lemma data_file_blocks_the_run_witness :
  let w := World {[ ["data"%string] := File (JString (lit "notes")) ]} [] in
  fst (main ascii_digit (default_args None) (Page page_with_tbd) w)
  = Raised (FileExistsError ["data"%string])
  /\ files (snd (main ascii_digit (default_args None) (Page page_with_tbd) w))
     = files w.
Proof.
  apply (data_file_blocks_the_run ascii_digit (default_args None)
           (Page page_with_tbd)
           (World {[ ["data"%string] := File (JString (lit "notes")) ]} [])
           tbd_grid (JString (lit "notes"))).
  - vm_compute. reflexivity.
  - vm_compute. reflexivity.
Defined.

Lemma makedirs_data_lookup w (q : path) :
  q ≠ ["data"%string] ->
  files (snd (makedirs ["data"%string] w)) !! q = files w !! q.
Proof.
  intros Hq. rewrite makedirs_data.
  destruct (files w !! (["data"%string] : path)) as [[| |]|]; simpl;
    [done|done|done|].
  by rewrite lookup_insert_ne.
Qed.

(** Whether it returns or raises, [write_json] leaves every key alone but
    the one its path resolves to. *)
Lemma write_json_lookup (p : path) doc w (q : path) :
  q ≠ canonical p -> files (snd (write_json p doc w)) !! q = files w !! q.
Proof.
  intros Hq.
  destruct (write_json_cases p doc w)
    as [(e & _ & ->)|[(t & Ht & _ & ->)|(t & Ht & _ & ->)]]; [done| |];
    apply open_w_canonical in Ht as [-> _]; simpl;
    by rewrite lookup_insert_ne.
Qed.

(** X15: with output paths that stay below the working directory,
    whatever happens, also when the run raises half way, it changes
    nothing in the working directory outside of [data] and the two keys
    that the output paths resolve to. *)
Theorem run_touches_three_paths is_digit a resp w (q : path) :
  below (arg_values_out a) = true ->
  below (arg_body_out a) = true ->
  q ≠ ["data"%string] ->
  q ≠ canonical (arg_values_out a) ->
  q ≠ canonical (arg_body_out a) ->
  files (snd (main is_digit a resp w)) !! q = files w !! q.
Proof.
  intros _ _ Hd Hv Hb. unfold main, mbind, io_bind.
  destruct (scrape_first10 is_digit resp w) as [[values|e] w1] eqn:Hs;
    pose proof (Hf := scrape_first10_files_eq _ _ _ _ _ Hs);
    [|simpl; by rewrite Hf].
  pose proof (H1 := makedirs_data_lookup w1 q Hd).
  destruct (makedirs ["data"%string] w1) as [[[]|e] w2]; simpl in H1;
    [|simpl; by rewrite H1, Hf].
  pose proof (H2 := write_json_lookup (arg_values_out a)
                      (grid_json values) w2 q Hv).
  destruct (write_json (arg_values_out a) (grid_json values) w2)
    as [[[]|e] w3]; simpl in H2; [|simpl; by rewrite H2, H1, Hf].
  pose proof (H3 := write_json_lookup (arg_body_out a)
                      (append_body (arg_range a) values) w3 q Hb).
  destruct (write_json (arg_body_out a) (append_body (arg_range a) values) w3)
    as [[[]|e] w4]; simpl in H3; simpl; by rewrite H3, H2, H1, Hf.
Qed.

Lemma run_touches_three_paths_witness :
  let w := World {[ ["notes.txt"%string] := File (JString (lit "keep")) ]} [] in
  files (snd (main ascii_digit args_with_dots (Page page_with_tbd) w))
    !! (["notes.txt"%string] : path)
  = files w !! (["notes.txt"%string] : path).
Proof.
  apply (run_touches_three_paths ascii_digit args_with_dots
           (Page page_with_tbd)
           (World {[ ["notes.txt"%string] := File (JString (lit "keep")) ]} [])
           ["notes.txt"%string]).
  - reflexivity.
  - reflexivity.
  - discriminate.
  - vm_compute. discriminate.
  - vm_compute. discriminate.
Defined.

(** X16: the conditions of X13 are also necessary: with output paths that
    stay below the working directory, a run that succeeds had a scraper
    that returned, a [data] that was a directory or was not there, [open]
    accepted both output paths once [data] was there, each at the key the
    path resolves to, and neither the grid nor the range held a
    surrogate. *)
Theorem run_succeeds_only_when is_digit a resp w :
  below (arg_values_out a) = true ->
  below (arg_body_out a) = true ->
  fst (main is_digit a resp w) = Returned tt ->
  exists values w1,
    scrape_first10 is_digit resp w = (Returned values, w1)
    /\ data_free (files w)
    /\ open_w (<[["data"%string] := Dir]> (files w)) (arg_values_out a)
       = inr (canonical (arg_values_out a))
    /\ open_w (<[["data"%string] := Dir]> (files w)) (arg_body_out a)
       = inr (canonical (arg_body_out a))
    /\ json_utf8_ok (grid_json values) = true
    /\ utf8_ok (arg_range a) = true.
Proof.
  intros _ _ H.
  destruct (main_returns_only_when _ _ _ _ H)
    as (values & w1 & tv & tb & Hs & Hdata & Hv & Hb & Hg & Hr).
  exists values, w1.
  pose proof (open_w_canonical _ _ _ Hv) as [Ev _].
  pose proof (open_w_canonical _ _ _ Hb) as [Eb _].
  subst tv tb. by repeat split.
Qed.

Lemma run_succeeds_only_when_witness :
  exists values w1,
    scrape_first10 ascii_digit (Page page_with_tbd) empty_world
      = (Returned values, w1)
    /\ data_free (files empty_world)
    /\ open_w (<[["data"%string] := Dir]> (files empty_world))
         (arg_values_out args_with_dots)
       = inr (canonical (arg_values_out args_with_dots))
    /\ open_w (<[["data"%string] := Dir]> (files empty_world))
         (arg_body_out args_with_dots)
       = inr (canonical (arg_body_out args_with_dots))
    /\ json_utf8_ok (grid_json values) = true
    /\ utf8_ok (arg_range args_with_dots) = true.
Proof.
  apply (run_succeeds_only_when ascii_digit args_with_dots
           (Page page_with_tbd) empty_world).
  - reflexivity.
  - reflexivity.
  - vm_compute. reflexivity.
Defined.

Lemma scrape_first10_value is_digit resp w w' :
  fst (scrape_first10 is_digit resp w) = fst (scrape_first10 is_digit resp w').
Proof.
  destruct resp as [| |doc]; [done|done|].
  rewrite !scrape_first10_run. by destruct (ROWS_1_TO_10 doc).
Qed.

(** X17: running again on what a successful run left behind succeeds
    again and leaves every file and directory as it was: the two files are
    rewritten with the same documents. *)
Theorem rerun_changes_no_file is_digit a resp w :
  fst (main is_digit a resp w) = Returned tt ->
  fst (main is_digit a resp (snd (main is_digit a resp w))) = Returned tt
  /\ files (snd (main is_digit a resp (snd (main is_digit a resp w))))
     = files (snd (main is_digit a resp w)).
Proof.
  intros H.
  destruct (main_returns_only_when _ _ _ _ H)
    as (values & w1 & tv & tb & Hs & Hdata & Hv & Hb & Hg & Hr).
  rewrite (main_succeeds_when _ _ _ _ _ _ _ _ Hs Hdata Hv Hb Hg Hr). simpl.
  set (fs1 := <[["data"%string] := Dir]> (files w)) in *.
  set (G := File (grid_json values)).
  set (B := File (append_body (arg_range a) values)).
  set (fs' := <[tb := B]> (<[tv := G]> fs1)).
  set (w' := World fs' _).
  pose proof (open_w_canonical _ _ _ Hv) as [_ Hvd].
  pose proof (open_w_canonical _ _ _ Hb) as [_ Hbd].
  assert (Hd1 : fs1 !! (["data"%string] : path) = Some Dir)
    by apply lookup_insert_eq.
  assert (Hnv : tv ≠ ["data"%string]) by congruence.
  assert (Hnb : tb ≠ ["data"%string]) by congruence.
  assert (Hd' : fs' !! (["data"%string] : path) = Some Dir).
  { unfold fs'. by rewrite !lookup_insert_ne. }
  assert (Hid : <[["data"%string] := Dir]> fs' = fs') by (by apply insert_id).
  assert (Hbd2 : <[tv := G]> fs1 !! tb ≠ Some Dir).
  { destruct (decide (tv = tb)) as [E|E].
    - rewrite E, lookup_insert_eq. done.
    - by rewrite lookup_insert_ne. }
  assert (Hsame : same_dirs fs1 fs').
  { eapply same_dirs_trans; [apply (same_dirs_insert fs1 tv G); done|].
    by apply same_dirs_insert. }
  destruct (scrape_first10 is_digit resp w') as [r w1'] eqn:Hs'.
  assert (Er : r = Returned values).
  { pose proof (scrape_first10_value is_digit resp w' w) as E.
    by rewrite Hs', Hs in E. }
  subst r.
  assert (Hdata' : data_free (files w')) by (by right).
  assert (Hv' : open_w (<[["data"%string] := Dir]> (files w'))
                  (arg_values_out a) = inr tv).
  { simpl. rewrite Hid. by apply (open_w_same_dirs fs1). }
  assert (Hb' : open_w (<[["data"%string] := Dir]> (files w'))
                  (arg_body_out a) = inr tb).
  { simpl. rewrite Hid. by apply (open_w_same_dirs fs1). }
  rewrite (main_succeeds_when is_digit a resp w' values w1' tv tb
             Hs' Hdata' Hv' Hb' Hg Hr).
  simpl. split; [done|]. rewrite Hid. unfold fs'. fold G B.
  apply map_eq. intros q. rewrite !lookup_insert.
  repeat case_decide; congruence.
Qed.

Lemma rerun_changes_no_file_witness :
  let a := default_args None in
  let resp := Page page_with_tbd in
  fst (main ascii_digit a resp (snd (main ascii_digit a resp empty_world)))
  = Returned tt
  /\ files (snd (main ascii_digit a resp
                   (snd (main ascii_digit a resp empty_world))))
     = files (snd (main ascii_digit a resp empty_world)).
Proof.
  apply (rerun_changes_no_file ascii_digit (default_args None)
           (Page page_with_tbd) empty_world).
  vm_compute. reflexivity.
Defined.
